(** * react-fluxter: the store, its React bindings and the zustand-style factory

    A shallow embedding of [core/types.ts], [core/store.ts],
    [react/context.ts], [react/hooks.ts] and [zustand-style.ts], followed by
    the properties of the store that the specification states.

    The variables captured by the closures that [createStore] returns
    ([currentState], [storeName], [listeners]) are one record that every
    operation threads; an operation may throw, and whatever it wrote before
    throwing stays written.  Calls of the reducer and of listeners are
    recorded in a trace, which is how "is invoked", "exactly once" and "in
    registration order" are stated. *)

From Stdlib Require Import List String ZArith Bool Lia PeanoNat.
Import ListNotations.
Open Scope string_scope.
Open Scope list_scope.

Set Warnings "-register-all".

(** ** JavaScript values *)

(** The values a state, an action field or a thrown exception can be.
    Objects carry their own properties in insertion order. *)
Inductive value : Type :=
| VUndefined
| VNull
| VBoolean (b : bool)
| VNumber (n : Z)
| VString (s : string)
| VObject (props : list (string * value)).

(** [typeof v]. *)
Definition typeof (v : value) : string :=
  match v with
  | VUndefined => "undefined"
  | VNull => "object"
  | VBoolean _ => "boolean"
  | VNumber _ => "number"
  | VString _ => "string"
  | VObject _ => "object"
  end.

(** [v == null]: the value is [null] or [undefined]. *)
Definition nullish (v : value) : bool :=
  match v with
  | VUndefined | VNull => true
  | _ => false
  end.

(** The bound [S extends Record<string, any>] of the state type. *)
Definition is_record (v : value) : bool :=
  match v with
  | VObject _ => true
  | _ => false
  end.

(** Property read [o.key] on a property list: [undefined] when absent. *)
Fixpoint get (key : string) (props : list (string * value)) : value :=
  match props with
  | [] => VUndefined
  | (k, v) :: rest => if String.eqb k key then v else get key rest
  end.

(** [new Error(message)]. *)
Definition Error (message : string) : value :=
  VObject [("message", VString message)].

(** ** core/types.ts *)

(** [Action = { type: string } & Record<string, any>]: the tag, and the
    other properties. *)
Record Action : Type := mkAction {
  type : string;
  fields : list (string * value)
}.

(** A call either returns or throws a value. *)
Inductive result (A : Type) : Type :=
| Ok (a : A)
| Throw (e : value).
Arguments Ok {A} a.
Arguments Throw {A} e.

(** [Reducer<S> = (currentState: S, action: Action) => S]; a reducer is
    pure, and may throw. *)
Definition Reducer : Type := value -> Action -> result value.

(** [Selector<S, T> = (state: S) => T]. *)
Definition Selector : Type := value -> result value.

(** [EqualityFn<T> = (a: T, b: T) => boolean]. *)
Definition EqualityFn : Type := value -> value -> bool.

(** A listener [() => void] is a function object; [indexOf] compares
    listeners by identity, so a listener is its identity. *)
Definition Listener : Type := nat.

(** ** The closure of [createStore] and computations over it *)

(** The three [let] variables of [createStore]. *)
Record Closure : Type := mkClosure {
  currentState : value;
  storeName : string;
  listeners : list Listener
}.

(** What a trace records: an application of the reducer, a call of a
    listener. *)
Inductive event : Type :=
| Reduce (s : value) (a : Action)
| Notify (l : Listener).

(** The result of running a computation: the calls it made, how it ended,
    and the variables as it left them. *)
Record outcome (A : Type) : Type := Outcome {
  trace : list event;
  res : result A;
  vars : Closure
}.
Arguments Outcome {A} trace res vars.
Arguments trace {A} o.
Arguments res {A} o.
Arguments vars {A} o.

Definition M (A : Type) : Type := Closure -> outcome A.

Definition ret {A : Type} (a : A) : M A :=
  fun c => Outcome [] (Ok a) c.

Definition bind {A B : Type} (m : M A) (f : A -> M B) : M B :=
  fun c =>
    let o := m c in
    match res o with
    | Ok a =>
        let o' := f a (vars o) in
        Outcome (trace o ++ trace o') (res o') (vars o')
    | Throw e => Outcome (trace o) (Throw e) (vars o)
    end.

Notation "x <- m ;; k" := (bind m (fun x => k))
  (at level 61, m at next level, right associativity).
Notation "m ;; k" := (bind m (fun _ => k))
  (at level 61, right associativity).

Definition gets {A : Type} (f : Closure -> A) : M A :=
  fun c => Outcome [] (Ok (f c)) c.

Definition modify (f : Closure -> Closure) : M unit :=
  fun c => Outcome [] (Ok tt) (f c).

Definition emit (ev : event) : M unit :=
  fun c => Outcome [ev] (Ok tt) c.

(** A pure call that may throw, inside a computation. *)
Definition lift {A : Type} (r : result A) : M A :=
  fun c => Outcome [] r c.

Definition set_currentState (s : value) (c : Closure) : Closure :=
  mkClosure s (storeName c) (listeners c).

Definition set_storeName (n : string) (c : Closure) : Closure :=
  mkClosure (currentState c) n (listeners c).

Definition set_listeners (ls : list Listener) (c : Closure) : Closure :=
  mkClosure (currentState c) (storeName c) ls.

(** The listeners a trace shows as called, in call order. *)
Fixpoint notified (t : list event) : list Listener :=
  match t with
  | [] => []
  | Notify l :: t' => l :: notified t'
  | Reduce _ _ :: t' => notified t'
  end.

(** ** Array operations on [listeners] *)

Fixpoint indexOf_from (x : Listener) (ls : list Listener) (k : Z) : Z :=
  match ls with
  | [] => (-1)%Z
  | y :: rest => if Nat.eqb y x then k else indexOf_from x rest (k + 1)%Z
  end.

(** [ls.indexOf(x)]: the first index holding [x], or [-1]. *)
Definition indexOf (x : Listener) (ls : list Listener) : Z :=
  indexOf_from x ls 0%Z.

(** [ls.splice(start, deleteCount)], for [start] within the array: what is
    left in [ls]. *)
Definition splice (start deleteCount : nat) (ls : list Listener)
  : list Listener :=
  firstn start ls ++ skipn (start + deleteCount) ls.

(** [ls.push(x)]. *)
Definition push (x : Listener) (ls : list Listener) : list Listener :=
  ls ++ [x].

(** The loop of [listeners.forEach(callbackfn)].  Array.prototype.forEach
    reads the length once, before the first call, then visits the indices
    below it in increasing order, reading the array as it is at each visit
    and skipping an index that the array no longer has. [remaining] is the
    number of indices left to visit and [k] the next one. *)
Fixpoint forEach_loop (callbackfn : Listener -> M unit)
  (remaining k : nat) : M unit :=
  match remaining with
  | O => ret tt
  | S remaining' =>
      (ls <- gets listeners ;;
       match nth_error ls k with
       | Some listener => callbackfn listener
       | None => ret tt
       end) ;;
      forEach_loop callbackfn remaining' (S k)
  end.

Definition forEach (callbackfn : Listener -> M unit) : M unit :=
  ls <- gets listeners ;;
  forEach_loop callbackfn (List.length ls) 0.

(** ** core/types.ts: [Store<S>] *)

Module Store.
Record t : Type := mk {
  getState : M value;
  dispatch : Action -> M unit;
  subscribe : Listener -> M (M bool);
  getStoreName : M string;
  setStoreName : string -> M unit
}.
End Store.

(** ** core/store.ts *)

(** The action of the implicit first dispatch. *)
Definition INIT : Action := mkAction "@@INIT" [].

Section CreateStore.

(** The [reducer] argument of [createStore]. *)
Variable reducer : Reducer.

(** What calling a listener does: any computation over the store's
    variables, so a listener may subscribe, unsubscribe, dispatch or throw. *)
Variable call : Listener -> M unit.

(** [listener => listener()], the call being recorded. *)
Definition invoke (listener : Listener) : M unit :=
  emit (Notify listener) ;; call listener.

Definition getState : M value :=
  gets currentState.

Definition getStoreName : M string :=
  gets storeName.

Definition setStoreName (newName : string) : M unit :=
  modify (set_storeName newName) ;;
  forEach invoke.

(** [reducer(currentState, action)], the call being recorded. *)
Definition applyReducer (s : value) (action : Action) : M value :=
  emit (Reduce s action) ;; lift (reducer s action).

(** The last two statements of [dispatch]. *)
Definition reduceAndNotify (action : Action) : M unit :=
  s <- gets currentState ;;
  s' <- applyReducer s action ;;
  modify (set_currentState s') ;;
  forEach invoke.

Definition dispatch (action : Action) : M unit :=
  if String.eqb (type action) "@@RENAME_STORE" then
    match get "name" (fields action) with
    | VString name =>            (* typeof action.name === 'string' *)
        setStoreName name
    | _ => reduceAndNotify action
    end
  else reduceAndNotify action.

(** The function that [subscribe(listener)] returns. *)
Definition unsubscribe (listener : Listener) : M bool :=
  ls <- gets listeners ;;
  let index := indexOf listener ls in
  if (index =? -1)%Z then ret false
  else
    modify (set_listeners (splice (Z.to_nat index) 1 ls)) ;;
    ret true.

Definition subscribe (listener : Listener) : M (M bool) :=
  modify (fun c => set_listeners (push listener (listeners c)) c) ;;
  ret (unsubscribe listener).

(** The object that [createStore] returns. *)
Definition store : Store.t :=
  Store.mk getState dispatch subscribe getStoreName setStoreName.

(** [createStore(initialState, reducer, initialName = "default")];
    [None] is an omitted name. *)
Definition createStore (initialState : value) (initialName : option string)
  : outcome Store.t :=
  let initialName :=
    match initialName with Some n => n | None => "default" end in
  (dispatch INIT ;; ret store)
    (mkClosure initialState initialName []).

End CreateStore.

(** ** react/context.ts *)

(** React's context, as the hooks see it: the stores of the enclosing
    [<Provider store={...}>] elements, innermost first. *)
Definition StoreContext : Type := list Store.t.

(** [useContext(StoreContext)]: the value of the nearest enclosing provider,
    or the default [null] that [createContext(null)] gave the context. *)
Definition useContext (ctx : StoreContext) : option Store.t :=
  match ctx with
  | [] => None
  | nearest :: _ => Some nearest
  end.

Definition useStoreContext (ctx : StoreContext) : result Store.t :=
  match useContext ctx with
  | None => Throw (Error "useStoreContext must be used within a StoreProvider")
  | Some store => Ok store
  end.

(** ** react/Provider.tsx *)

(** [<StoreContext.Provider value={store}>{children}</...>]: the children
    are rendered with [store] as the nearest provider. *)
Definition Provider {A : Type} (store : Store.t)
  (children : StoreContext -> A) (ctx : StoreContext) : A :=
  children (store :: ctx).

(** ** react/hooks.ts and zustand-style.ts *)

Section Hooks.

(** React's [useSyncExternalStore(subscribe, getSnapshot,
    getServerSnapshot)]; the hooks hold for whatever it does with its
    arguments. *)
Variable useSyncExternalStore :
  (Listener -> M (M bool)) -> M value -> M value -> M value.

(** An omitted [equalityFn] is [None]; no hook reads it. *)
Definition useSelector (selector : Selector) (equalityFn : option EqualityFn)
  (ctx : StoreContext) : M value :=
  store <- lift (useStoreContext ctx) ;;
  useSyncExternalStore
    (Store.subscribe store)
    (s <- Store.getState store ;; lift (selector s))
    (s <- Store.getState store ;; lift (selector s)).

Definition useDispatch (ctx : StoreContext) : M (Action -> M unit) :=
  store <- lift (useStoreContext ctx) ;;
  ret (Store.dispatch store).

Definition useStore (ctx : StoreContext) : M value :=
  store <- lift (useStoreContext ctx) ;;
  useSyncExternalStore
    (Store.subscribe store)
    (Store.getState store)
    (Store.getState store).

(** The arrow function that the hook returned by [create] passes as
    [getSnapshot] and as [getServerSnapshot]. *)
Definition getSnapshot (store : Store.t) (selector : option Selector)
  : M value :=
  match selector with
  | Some selector => s <- Store.getState store ;; lift (selector s)
  | None => Store.getState store
  end.

Variable reducer : Reducer.
Variable call : Listener -> M unit.

(** [create(initialState, reducer, storeName = "zustand-store")]: the
    returned function is the inner [useStore(selector?, equalityFn)]. *)
Definition create (initialState : value) (storeName : option string)
  : outcome (option Selector -> option EqualityFn -> M value) :=
  let storeName :=
    match storeName with Some n => n | None => "zustand-store" end in
  let o := createStore reducer call initialState (Some storeName) in
  match res o with
  | Ok store =>
      Outcome (trace o)
        (Ok (fun selector equalityFn =>
               useSyncExternalStore
                 (Store.subscribe store)
                 (getSnapshot store selector)
                 (getSnapshot store selector)))
        (vars o)
  | Throw e => Outcome (trace o) (Throw e) (vars o)
  end.

End Hooks.

(** A [useSyncExternalStore] for examples: at a render on the client the
    value of the hook is what [getSnapshot] returns. *)
Definition clientRender
  : (Listener -> M (M bool)) -> M value -> M value -> M value :=
  fun subscribe getSnapshot getServerSnapshot => getSnapshot.

(** ** Clients *)

(** A call that a client makes on a store.  [Unsubscribe l] calls the
    function that a [subscribe(l)] returned. *)
Inductive request : Type :=
| GetState
| GetStoreName
| SetStoreName (newName : string)
| Dispatch (action : Action)
| Subscribe (listener : Listener)
| Unsubscribe (listener : Listener).

Section Client.

Variable reducer : Reducer.
Variable call : Listener -> M unit.

Definition perform (r : request) : M unit :=
  match r with
  | GetState => getState ;; ret tt
  | GetStoreName => getStoreName ;; ret tt
  | SetStoreName newName => setStoreName call newName
  | Dispatch action => dispatch reducer call action
  | Subscribe listener => subscribe listener ;; ret tt
  | Unsubscribe listener => unsubscribe listener ;; ret tt
  end.

(** A client makes its calls one after another and carries on after a call
    that throws: the events of all the calls, and the variables at the end. *)
Fixpoint run (rs : list request) (c : Closure) : list event * Closure :=
  match rs with
  | [] => ([], c)
  | r :: rs' =>
      let o := perform r c in
      let '(t, c') := run rs' (vars o) in
      (trace o ++ t, c')
  end.

End Client.

(** ** Listener behaviours *)

(** Listeners that only look: a call returns at once and writes nothing. *)
Definition observers : Listener -> M unit :=
  fun _ => ret tt.

(** Listener [0] is [() => { off() }] for the [off] that its own
    [subscribe] returned; the others only look. *)
Definition once : Listener -> M unit :=
  fun l =>
    match l with
    | O => unsubscribe 0 ;; ret tt
    | S _ => ret tt
    end.

(** Listeners that are [passive]: a call leaves the state and the name as
    they are (it may subscribe, unsubscribe and throw). *)
Definition passive (call : Listener -> M unit) : Prop :=
  forall l c,
    currentState (vars (call l c)) = currentState c /\
    storeName (vars (call l c)) = storeName c.

(** No listener call writes the state or the name of the store [c]: the
    store has no listener, as when [createStore] returns it and while it is
    only dispatched to, or the listeners are passive. *)
Definition undisturbed (call : Listener -> M unit) (c : Closure) : Prop :=
  listeners c = [] \/ passive call.

(** ** Reducers *)

(** [{ ...props, key: v }]: the properties of [props] in their order, [key]
    holding [v] where it stood, or behind them when it is new. *)
Fixpoint put (key : string) (v : value) (props : list (string * value))
  : list (string * value) :=
  match props with
  | [] => [(key, v)]
  | (k, w) :: rest =>
      if String.eqb k key then (k, v) :: rest else (k, w) :: put key v rest
  end.

(** [{ ...state, count: state.count + 1 }] on a state whose [count] is a
    number, as the state type of the README has it: the other properties
    stay.  Numbers are integers here, which is what the addition gives
    while the count stays below 2^53. *)
Definition increment (state : value) : value :=
  match state with
  | VObject props =>
      match get "count" props with
      | VNumber n => VObject (put "count" (VNumber (n + 1)) props)
      | _ => state
      end
  | _ => state
  end.

(** The counter of the README: unknown tags return the state. *)
Definition counterReducer : Reducer :=
  fun state action =>
    if String.eqb (type action) "INCREMENT" then Ok (increment state)
    else Ok state.

(** A counter that rejects the tags it does not know. *)
Definition strictReducer : Reducer :=
  fun state action =>
    if String.eqb (type action) "@@INIT" then Ok state
    else if String.eqb (type action) "INCREMENT" then Ok (increment state)
    else Throw (Error "unknown action").

(** A reducer that has no case for any tag and throws. *)
Definition failingReducer : Reducer :=
  fun _ _ => Throw (Error "not implemented").

(** The state [{ count: 0 }] and the action [{ type: 'INCREMENT' }]. *)
Definition counter (n : Z) : value := VObject [("count", VNumber n)].

Definition INCREMENT : Action := mkAction "INCREMENT" [].

(** A well-formed rename: the tag with a string [name]. *)
Definition rename (name : string) : Action :=
  mkAction "@@RENAME_STORE" [("name", VString name)].

(** The name a well-formed rename carries; [None] for every other action. *)
Definition renameTarget (action : Action) : option string :=
  if String.eqb (type action) "@@RENAME_STORE" then
    match get "name" (fields action) with
    | VString name => Some name
    | _ => None
    end
  else None.

(** The array [ls] without the first entry equal to [x]: what
    [ls.splice(ls.indexOf(x), 1)] leaves when [x] is in [ls]. *)
Fixpoint removeFirst (x : Listener) (ls : list Listener) : list Listener :=
  match ls with
  | [] => []
  | y :: rest => if Nat.eqb y x then rest else y :: removeFirst x rest
  end.

(** [Subscribe x] registers [x] (again). *)
Definition registers (x : Listener) (r : request) : bool :=
  match r with
  | Subscribe l => Nat.eqb l x
  | _ => false
  end.

(** Listener [l0] is [() => { off() }] for the [off] of its own
    [subscribe], wherever it stands in the array; the others only look. *)
Definition selfRemoving (l0 : Listener) : Listener -> M unit :=
  fun l => if Nat.eqb l l0 then unsubscribe l0 ;; ret tt else ret tt.

(** Every listener is [() => { store.subscribe(extra) }]. *)
Definition subscribing (extra : Listener) : Listener -> M unit :=
  fun _ => subscribe extra ;; ret tt.

(** A call of [l] returns at once and writes nothing, in every store. *)
Definition quiet (call : Listener -> M unit) (l : Listener) : Prop :=
  forall c, call l c = Outcome [] (Ok tt) c.

(** [state.count < n]. *)
Definition countBelow (n : Z) (state : value) : bool :=
  match state with
  | VObject props =>
      match get "count" props with
      | VNumber m => (m <? n)%Z
      | _ => false
      end
  | _ => false
  end.

(** Every listener is
    [() => { if (store.getState().count < 2) store.dispatch({ type: 'INCREMENT' }) }]
    on a store of [counterReducer].  The dispatch inside the listener calls
    the same listeners again, so the definition is recursive: [depth] is how
    deep dispatches are followed into one another, and the statements made
    with it hold from the depth that the run reaches on. *)
Fixpoint reentrant (depth : nat) (l : Listener) : M unit :=
  match depth with
  | O => ret tt
  | S depth' =>
      s <- getState ;;
      if countBelow 2 s
      then dispatch counterReducer (reentrant depth') INCREMENT
      else ret tt
  end.

(** Listener [l0] is [() => { throw new Error('listener failed') }]; the
    others only look. *)
Definition throwingAt (l0 : Listener) : Listener -> M unit :=
  fun l =>
    if Nat.eqb l l0 then lift (Throw (Error "listener failed")) else ret tt.

(** No listener subscribes [l]: a call made in a store where [l] is not
    registered leaves it unregistered, and does not have it called. *)
Definition avoids (l : Listener) (call : Listener -> M unit) : Prop :=
  forall x c,
    ~ In l (listeners c) ->
    ~ In l (notified (trace (call x c))) /\
    ~ In l (listeners (vars (call x c))).

(** The number of entries of a listener that a sequence of [subscribe]
    calls and calls of the functions returned leaves, from [m] entries: one
    more at each [subscribe], one less at each call that finds one. *)
Definition entriesAfter (rs : list request) (m : nat) : nat :=
  fold_left
    (fun m r =>
       match r with
       | Subscribe _ => S m
       | Unsubscribe _ => Nat.pred m
       | _ => m
       end)
    rs m.

(** Listeners that return, make no call that a trace records, and leave
    the entries of the array where they are: they may push new ones. *)
Definition appending (call : Listener -> M unit) : Prop :=
  forall l c,
    res (call l c) = Ok tt /\
    trace (call l c) = [] /\
    exists extra, listeners (vars (call l c)) = listeners c ++ extra.

(** The name that the last rename with a string [name] among [actions]
    carries, or [name] when there is none. *)
Definition lastRename (name : string) (actions : list Action) : string :=
  fold_left
    (fun n a => match renameTarget a with Some n' => n' | None => n end)
    actions name.

(** * Properties *)

(** ** Computations *)

Lemma outcome_eta {A : Type} (o : outcome A) :
  Outcome (trace o) (res o) (vars o) = o.
Proof. destruct o; reflexivity. Qed.

Lemma closure_eta (c : Closure) :
  mkClosure (currentState c) (storeName c) (listeners c) = c.
Proof. destruct c; reflexivity. Qed.

Lemma set_listeners_same (c : Closure) :
  set_listeners (listeners c) c = c.
Proof. apply closure_eta. Qed.

Lemma set_listeners_twice (ls ls' : list Listener) (c : Closure) :
  set_listeners ls (set_listeners ls' c) = set_listeners ls c.
Proof. reflexivity. Qed.

Lemma bind_ok {A B : Type} (m : M A) (f : A -> M B) (c : Closure) (a : A) :
  res (m c) = Ok a ->
  bind m f c =
  Outcome (trace (m c) ++ trace (f a (vars (m c))))
          (res (f a (vars (m c)))) (vars (f a (vars (m c)))).
Proof. intros H. unfold bind. rewrite H. reflexivity. Qed.

Lemma bind_throw {A B : Type} (m : M A) (f : A -> M B) (c : Closure)
  (e : value) :
  res (m c) = Throw e ->
  bind m f c = Outcome (trace (m c)) (Throw e) (vars (m c)).
Proof. intros H. unfold bind. rewrite H. reflexivity. Qed.

Lemma bind_gets {A B : Type} (f : Closure -> A) (k : A -> M B)
  (c : Closure) :
  bind (gets f) k c = k (f c) c.
Proof. unfold bind, gets. cbn [res vars trace app]. apply outcome_eta. Qed.

Lemma bind_modify {B : Type} (f : Closure -> Closure) (k : unit -> M B)
  (c : Closure) :
  bind (modify f) k c = k tt (f c).
Proof. unfold bind, modify. cbn [res vars trace app]. apply outcome_eta. Qed.

Lemma bind_lift {A B : Type} (r : result A) (k : A -> M B) (c : Closure) :
  bind (lift r) k c =
  match r with
  | Ok a => k a c
  | Throw e => Outcome [] (Throw e) c
  end.
Proof.
  unfold bind, lift. cbn [res vars trace app].
  destruct r; [apply outcome_eta|reflexivity].
Qed.

Lemma notified_app (t u : list event) :
  notified (t ++ u) = notified t ++ notified u.
Proof.
  induction t as [|[s a|l] t IH]; simpl; [reflexivity|assumption|].
  now rewrite IH.
Qed.

(** ** The array operations *)

Lemma indexOf_from_absent (x : Listener) (ls : list Listener) :
  forall k, ~ In x ls -> indexOf_from x ls k = (-1)%Z.
Proof.
  induction ls as [|y rest IH]; intros k Hx; simpl; [reflexivity|].
  destruct (Nat.eqb_spec y x) as [->|Hne].
  - exfalso. apply Hx. now left.
  - apply IH. intros Hin. apply Hx. now right.
Qed.

Lemma indexOf_from_present (x : Listener) (ls : list Listener) :
  forall k, In x ls ->
    exists i,
      indexOf_from x ls k = (k + Z.of_nat i)%Z /\
      i < List.length ls /\
      splice i 1 ls = removeFirst x ls.
Proof.
  induction ls as [|y rest IH]; intros k Hx; [destruct Hx|].
  simpl. destruct (Nat.eqb_spec y x) as [->|Hne].
  - exists 0. repeat split; simpl; lia.
  - destruct Hx as [Heq|Hin]; [contradiction|].
    destruct (IH (k + 1)%Z Hin) as (i & Hi & Hlt & Hsp).
    exists (S i). repeat split; [lia|simpl; lia|].
    unfold splice in *. simpl. now rewrite Hsp.
Qed.

Lemma removeFirst_absent (x : Listener) (ls : list Listener) :
  ~ In x ls -> removeFirst x ls = ls.
Proof.
  induction ls as [|y rest IH]; intros Hx; simpl; [reflexivity|].
  destruct (Nat.eqb_spec y x) as [->|Hne].
  - exfalso. apply Hx. now left.
  - rewrite IH; [reflexivity|]. intros Hin. apply Hx. now right.
Qed.

Lemma removeFirst_push (x : Listener) (ls : list Listener) :
  ~ In x ls -> removeFirst x (push x ls) = ls.
Proof.
  unfold push. induction ls as [|y rest IH]; intros Hx; simpl.
  - now rewrite Nat.eqb_refl.
  - destruct (Nat.eqb_spec y x) as [->|Hne].
    + exfalso. apply Hx. now left.
    + rewrite IH; [reflexivity|]. intros Hin. apply Hx. now right.
Qed.

Lemma removeFirst_count (x : Listener) (ls : list Listener) :
  forall y,
    count_occ Nat.eq_dec (removeFirst x ls) y =
    if Nat.eqb y x then Nat.pred (count_occ Nat.eq_dec ls y)
    else count_occ Nat.eq_dec ls y.
Proof.
  induction ls as [|z rest IH]; intros y; simpl.
  - now destruct (Nat.eqb y x).
  - destruct (Nat.eqb_spec z x) as [->|Hzx].
    + destruct (Nat.eq_dec x y) as [->|Hxy].
      * now rewrite Nat.eqb_refl.
      * destruct (Nat.eqb_spec y x); [congruence|reflexivity].
    + simpl. rewrite IH. destruct (Nat.eq_dec z y) as [->|Hzy].
      * destruct (Nat.eqb_spec y x); [congruence|reflexivity].
      * reflexivity.
Qed.

Lemma removeFirst_incl (x : Listener) (ls : list Listener) :
  forall y, In y (removeFirst x ls) -> In y ls.
Proof.
  induction ls as [|z rest IH]; intros y; simpl; [tauto|].
  destruct (Nat.eqb z x); simpl; [tauto|]. intros [->|H]; auto.
Qed.

(** What the function returned by [subscribe] does, in one equation: it
    answers whether its listener is in the array and takes the first entry
    of it away. *)
Lemma unsubscribe_eq (l : Listener) (c : Closure) :
  unsubscribe l c =
  Outcome [] (Ok (if in_dec Nat.eq_dec l (listeners c) then true else false))
          (set_listeners (removeFirst l (listeners c)) c).
Proof.
  unfold unsubscribe, bind, gets, indexOf; simpl.
  destruct (in_dec Nat.eq_dec l (listeners c)) as [Hin|Hout].
  - destruct (indexOf_from_present l (listeners c) 0 Hin) as (i & Hi & _ & Hsp).
    rewrite Hi. destruct (Z.eqb_spec (0 + Z.of_nat i) (-1)) as [E|_]; [lia|].
    replace (Z.to_nat (0 + Z.of_nat i)) with i by lia.
    rewrite Hsp. reflexivity.
  - rewrite (indexOf_from_absent l (listeners c) 0 Hout). simpl.
    unfold ret. now rewrite removeFirst_absent, set_listeners_same.
Qed.

Lemma subscribe_eq (l : Listener) (c : Closure) :
  subscribe l c =
  Outcome [] (Ok (unsubscribe l)) (set_listeners (push l (listeners c)) c).
Proof. reflexivity. Qed.

(** ** The notification pass *)

Section Pass.

Variable call : Listener -> M unit.

Lemma invoke_eq (l : Listener) (c : Closure) :
  invoke call l c =
  Outcome (Notify l :: trace (call l c)) (res (call l c)) (vars (call l c)).
Proof. reflexivity. Qed.

(** One visit of the loop: the index holds a listener, which is called, or
    the array has shrunk below it and the index is skipped. *)
Lemma forEach_loop_S (n k : nat) (c : Closure) :
  forEach_loop (invoke call) (S n) k c =
  match nth_error (listeners c) k with
  | Some l =>
      let o := call l c in
      match res o with
      | Ok _ =>
          let o' := forEach_loop (invoke call) n (S k) (vars o) in
          Outcome (Notify l :: trace o ++ trace o') (res o') (vars o')
      | Throw e => Outcome (Notify l :: trace o) (Throw e) (vars o)
      end
  | None => forEach_loop (invoke call) n (S k) c
  end.
Proof.
  cbn [forEach_loop]. unfold bind at 1. rewrite bind_gets.
  destruct (nth_error (listeners c) k) as [l|].
  - rewrite invoke_eq. cbn [res vars trace].
    destruct (res (call l c)) as [[]|e]; reflexivity.
  - unfold ret at 1 2 3. cbn [res vars trace app]. apply outcome_eta.
Qed.

Lemma forEach_eq (c : Closure) :
  forEach (invoke call) c =
  forEach_loop (invoke call) (List.length (listeners c)) 0 c.
Proof.
  unfold forEach. now rewrite bind_gets.
Qed.

(** Listeners that leave the state and the name alone: so does the pass,
    however it ends. *)
Lemma forEach_loop_passive (Hp : passive call) :
  forall n k c,
    currentState (vars (forEach_loop (invoke call) n k c)) = currentState c /\
    storeName (vars (forEach_loop (invoke call) n k c)) = storeName c.
Proof.
  induction n as [|n IH]; intros k c; [split; reflexivity|].
  rewrite forEach_loop_S.
  destruct (nth_error (listeners c) k) as [l|]; [|apply IH].
  destruct (Hp l c) as [Hs Hn]. cbv zeta.
  destruct (res (call l c)) as [[]|e]; cbn [vars].
  - destruct (IH (S k) (vars (call l c))) as [Hs' Hn'].
    split; congruence.
  - split; assumption.
Qed.

Lemma forEach_passive (Hp : passive call) (c : Closure) :
  currentState (vars (forEach (invoke call) c)) = currentState c /\
  storeName (vars (forEach (invoke call) c)) = storeName c.
Proof. rewrite forEach_eq. now apply forEach_loop_passive. Qed.

(** With no listener the pass does nothing. *)
Lemma forEach_nil (c : Closure) :
  listeners c = [] ->
  forEach (invoke call) c = Outcome [] (Ok tt) c.
Proof. intros H. rewrite forEach_eq, H. reflexivity. Qed.

Lemma forEach_undisturbed (c : Closure) (Hu : undisturbed call c) :
  currentState (vars (forEach (invoke call) c)) = currentState c /\
  storeName (vars (forEach (invoke call) c)) = storeName c /\
  undisturbed call (vars (forEach (invoke call) c)).
Proof.
  destruct Hu as [Hnil|Hp].
  - rewrite (forEach_nil c Hnil). repeat split. now left.
  - destruct (forEach_passive Hp c) as [Hs Hn]. repeat split; try assumption.
    now right.
Qed.

Lemma skipn_nth_error {A : Type} (ls : list A) :
  forall k x, nth_error ls k = Some x -> skipn k ls = x :: skipn (S k) ls.
Proof.
  induction ls as [|y rest IH]; intros [|k] x H; simpl in *;
    try discriminate.
  - now inversion H.
  - now apply IH.
Qed.

(** [setStoreName] writes the name and runs the pass. *)
Lemma setStoreName_eq (newName : string) (c : Closure) :
  setStoreName call newName c =
  forEach (invoke call) (set_storeName newName c).
Proof.
  unfold setStoreName. now rewrite bind_modify.
Qed.

Variable reducer : Reducer.

Lemma applyReducer_eq (s : value) (a : Action) (c : Closure) :
  applyReducer reducer s a c = Outcome [Reduce s a] (reducer s a) c.
Proof. reflexivity. Qed.

(** [reduceAndNotify] when the reducer returns: the state is written, then
    the pass runs. *)
Lemma reduceAndNotify_ok (a : Action) (c : Closure) (s' : value) :
  reducer (currentState c) a = Ok s' ->
  reduceAndNotify reducer call a c =
  let o := forEach (invoke call) (set_currentState s' c) in
  Outcome (Reduce (currentState c) a :: trace o) (res o) (vars o).
Proof.
  intros H. unfold reduceAndNotify. rewrite bind_gets.
  rewrite (bind_ok _ _ _ s') by (rewrite applyReducer_eq; exact H).
  rewrite applyReducer_eq. cbn [res vars trace app].
  now rewrite bind_modify.
Qed.

(** [reduceAndNotify] when the reducer throws: nothing is written and no
    listener is called. *)
Lemma reduceAndNotify_throw (a : Action) (c : Closure) (e : value) :
  reducer (currentState c) a = Throw e ->
  reduceAndNotify reducer call a c =
  Outcome [Reduce (currentState c) a] (Throw e) c.
Proof.
  intros H. unfold reduceAndNotify. rewrite bind_gets.
  rewrite (bind_throw _ _ _ e) by (rewrite applyReducer_eq; exact H).
  now rewrite applyReducer_eq.
Qed.

(** The two branches of [dispatch]. *)
Lemma dispatch_rename (a : Action) (name : string) (c : Closure) :
  renameTarget a = Some name ->
  dispatch reducer call a c = setStoreName call name c.
Proof.
  unfold renameTarget, dispatch.
  destruct (String.eqb (type a) "@@RENAME_STORE"); [|discriminate].
  destruct (get "name" (fields a)); try discriminate.
  intros H. now inversion H.
Qed.

Lemma dispatch_other (a : Action) (c : Closure) :
  renameTarget a = None ->
  dispatch reducer call a c = reduceAndNotify reducer call a c.
Proof.
  unfold renameTarget, dispatch.
  destruct (String.eqb (type a) "@@RENAME_STORE"); [|reflexivity].
  destruct (get "name" (fields a)); try reflexivity. discriminate.
Qed.

(** What one [dispatch] leaves in the state and the name when listeners
    write neither. *)
Lemma dispatch_step (a : Action) (c : Closure) (Hu : undisturbed call c) :
  match renameTarget a with
  | Some name =>
      currentState (vars (dispatch reducer call a c)) = currentState c /\
      storeName (vars (dispatch reducer call a c)) = name
  | None =>
      match reducer (currentState c) a with
      | Ok s' =>
          currentState (vars (dispatch reducer call a c)) = s' /\
          storeName (vars (dispatch reducer call a c)) = storeName c
      | Throw e =>
          dispatch reducer call a c =
          Outcome [Reduce (currentState c) a] (Throw e) c
      end
  end.
Proof.
  destruct (renameTarget a) as [name|] eqn:Ha.
  - rewrite (dispatch_rename _ _ _ Ha), setStoreName_eq.
    destruct (forEach_undisturbed (set_storeName name c) Hu) as (Hs & Hn & _).
    split; assumption.
  - rewrite (dispatch_other _ _ Ha).
    destruct (reducer (currentState c) a) as [s'|e] eqn:Hr.
    + rewrite (reduceAndNotify_ok _ _ _ Hr). cbv zeta. cbn [vars].
      destruct (forEach_undisturbed (set_currentState s' c) Hu)
        as (Hs & Hn & _).
      split; assumption.
    + now apply reduceAndNotify_throw.
Qed.

Lemma dispatch_undisturbed (a : Action) (c : Closure)
  (Hu : undisturbed call c) :
  undisturbed call (vars (dispatch reducer call a c)).
Proof.
  destruct (renameTarget a) as [name|] eqn:Ha.
  - rewrite (dispatch_rename _ _ _ Ha), setStoreName_eq.
    now destruct (forEach_undisturbed (set_storeName name c) Hu) as (_ & _ & H).
  - rewrite (dispatch_other _ _ Ha).
    destruct (reducer (currentState c) a) as [s'|e] eqn:Hr.
    + rewrite (reduceAndNotify_ok _ _ _ Hr). cbv zeta. cbn [vars].
      now destruct (forEach_undisturbed (set_currentState s' c) Hu)
        as (_ & _ & H).
    + now rewrite (reduceAndNotify_throw _ _ _ Hr).
Qed.

End Pass.

(** ** Clients *)

Section Runs.

Variable reducer : Reducer.
Variable call : Listener -> M unit.

Lemma run_app (rs1 rs2 : list request) :
  forall c,
    run reducer call (rs1 ++ rs2) c =
    (fst (run reducer call rs1 c) ++
       fst (run reducer call rs2 (snd (run reducer call rs1 c))),
     snd (run reducer call rs2 (snd (run reducer call rs1 c)))).
Proof.
  induction rs1 as [|r rs1 IH]; intros c; cbn [app run].
  - cbn [fst snd app]. now destruct (run reducer call rs2 c).
  - rewrite IH.
    destruct (run reducer call rs1 (vars (perform reducer call r c))).
    cbn [fst snd]. now rewrite app_assoc.
Qed.

Lemma run_one (r : request) (c : Closure) :
  run reducer call [r] c =
  (trace (perform reducer call r c) ++ [], vars (perform reducer call r c)).
Proof. reflexivity. Qed.

Lemma firstn_S_nth_error {A : Type} (ls : list A) :
  forall i x, nth_error ls i = Some x -> firstn (S i) ls = firstn i ls ++ [x].
Proof.
  induction ls as [|y rest IH]; intros [|i] x H; simpl in *;
    try discriminate.
  - now inversion H.
  - f_equal. now apply IH.
Qed.

Lemma perform_unsubscribe (l : Listener) (c : Closure) :
  perform reducer call (Unsubscribe l) c =
  Outcome [] (Ok tt) (set_listeners (removeFirst l (listeners c)) c).
Proof.
  cbn [perform]. unfold bind. rewrite unsubscribe_eq. reflexivity.
Qed.

(** A call other than [dispatch] leaves the state as it is, when listeners
    do. *)
Lemma perform_state (Hp : passive call) (r : request) (c : Closure) :
  (forall a, r <> Dispatch a) ->
  currentState (vars (perform reducer call r c)) = currentState c.
Proof.
  intros Hr. destruct r as [| |n|a|l|l]; try reflexivity.
  - cbn [perform]. rewrite setStoreName_eq.
    now destruct (forEach_passive call Hp (set_storeName n c)).
  - exfalso. now apply (Hr a).
  - now rewrite perform_unsubscribe.
Qed.

(** A typed reducer and an object to start from: the state is an object
    after every call. *)
Lemma run_is_record (Hp : passive call)
  (Htyped : forall s a s',
      is_record s = true -> reducer s a = Ok s' -> is_record s' = true) :
  forall rs c,
    is_record (currentState c) = true ->
    is_record (currentState (snd (run reducer call rs c))) = true.
Proof.
  induction rs as [|r rs IH]; intros c Hc; [exact Hc|].
  cbn [run].
  destruct (run reducer call rs (vars (perform reducer call r c)))
    as [t c'] eqn:Hrun.
  cbn [snd]. change c' with (snd (t, c')). rewrite <- Hrun. apply IH.
  destruct r as [| |n|a|l|l];
    try (rewrite perform_state; [exact Hc|assumption|discriminate]).
  cbn [perform].
  pose proof (dispatch_step call reducer a c (or_intror Hp)) as Hstep.
  destruct (renameTarget a) as [name|].
  - destruct Hstep as [Hs _]. now rewrite Hs.
  - destruct (reducer (currentState c) a) as [s'|e] eqn:Hred.
    + destruct Hstep as [Hs _]. rewrite Hs. now apply (Htyped _ _ _ Hc Hred).
    + now rewrite Hstep.
Qed.

Lemma run_dispatch_undisturbed (actions : list Action) :
  forall c,
    undisturbed call c ->
    undisturbed call (snd (run reducer call (map Dispatch actions) c)).
Proof.
  induction actions as [|a actions IH]; intros c Hu; [exact Hu|].
  cbn [map run perform].
  specialize (IH _ (dispatch_undisturbed call reducer a c Hu)).
  now destruct (run reducer call (map Dispatch actions)
                  (vars (dispatch reducer call a c))).
Qed.

End Runs.

(** ** The store *)

(** C1, as the code has it. For every store and every sequence of
    dispatched actions,
    [getState()] after the i-th dispatch is the reducer applied to the
    state before it and to the i-th action, unless that action is a rename
    with a string [name], in which case the state is as before and
    [getStoreName()] is that name.  The store is one that has no listener,
    as [createStore] returns it, or one whose listeners write neither the
    state nor the name. *)
Theorem dispatch_sequence_states (reducer : Reducer)
  (call : Listener -> M unit) :
  forall (c : Closure) (actions : list Action) (i : nat) (a : Action),
    undisturbed call c ->
    nth_error actions i = Some a ->
    let before := snd (run reducer call (map Dispatch (firstn i actions)) c) in
    let after :=
      snd (run reducer call (map Dispatch (firstn (S i) actions)) c) in
    match renameTarget a with
    | Some name =>
        res (getState after) = res (getState before) /\
        res (getStoreName after) = Ok name
    | None =>
        forall s',
          reducer (currentState before) a = Ok s' ->
          res (getState after) = Ok s'
    end.
Proof.
  intros c actions i a Hu Hi before after. subst before after.
  rewrite (firstn_S_nth_error _ _ _ Hi), map_app, run_app.
  cbn [snd map]. rewrite run_one. cbn [snd perform].
  pose proof (run_dispatch_undisturbed reducer call (firstn i actions) c Hu)
    as Hbefore.
  set (before := snd (run reducer call (map Dispatch (firstn i actions)) c))
    in *.
  pose proof (dispatch_step call reducer a before Hbefore) as Hstep.
  destruct (renameTarget a) as [name|].
  - destruct Hstep as [Hs Hn]. unfold getState, getStoreName, gets.
    cbn [res]. now rewrite Hs, Hn.
  - intros s' Hred. rewrite Hred in Hstep. destruct Hstep as [Hs _].
    unfold getState, gets. cbn [res]. now rewrite Hs.
Qed.

Lemma observers_passive : passive observers.
Proof. intros l c. split; reflexivity. Qed.

(** The scenario of the specification: three increments of [{ count: 0 }],
    then a rename to ['x']. *)
Lemma dispatch_sequence_states_witness :
  let c := vars (createStore counterReducer once (counter 0) None) in
  undisturbed once c /\
  nth_error [INCREMENT; INCREMENT; INCREMENT; rename "x"] 3
    = Some (rename "x") /\
  let after :=
    snd (run counterReducer once
           (map Dispatch [INCREMENT; INCREMENT; INCREMENT; rename "x"]) c) in
  res (getState after) = Ok (counter 3) /\
  res (getStoreName after) = Ok "x".
Proof.
  split; [left; reflexivity|]. split; [reflexivity|].
  exact (dispatch_sequence_states counterReducer once
           (vars (createStore counterReducer once (counter 0) None))
           [INCREMENT; INCREMENT; INCREMENT; rename "x"] 3 (rename "x")
           (or_introl eq_refl) eq_refl).
Defined.


Lemma counterReducer_typed :
  forall s a s',
    is_record s = true -> counterReducer s a = Ok s' -> is_record s' = true.
Proof.
  intros s a s' Hs. unfold counterReducer.
  destruct (String.eqb (type a) "INCREMENT"); intros H; inversion H; subst.
  - destruct s as [| | | | |props]; try discriminate. unfold increment.
    now destruct (get "count" props).
  - exact Hs.
Qed.


(** C3, as the code has it. For every store and every action that is not a
    rename with a string [name]: if the reducer throws when applied to the
    current state and the action, [dispatch] throws the same value, calls no
    listener and writes nothing, so [getState()] afterwards is the state
    from before. *)
Theorem reducer_fault_propagates (reducer : Reducer)
  (call : Listener -> M unit) (c : Closure) (a : Action) (e : value) :
  renameTarget a = None ->
  reducer (currentState c) a = Throw e ->
  let o := dispatch reducer call a c in
  res o = Throw e /\
  notified (trace o) = [] /\
  vars o = c /\
  res (getState (vars o)) = Ok (currentState c).
Proof.
  intros Ha He o. subst o.
  rewrite dispatch_other by exact Ha.
  rewrite (reduceAndNotify_throw _ _ _ _ e) by exact He.
  repeat split.
Qed.

Lemma reducer_fault_propagates_witness :
  renameTarget (mkAction "RESET" []) = None /\
  strictReducer (counter 0) (mkAction "RESET" [])
    = Throw (Error "unknown action") /\
  let c := vars (createStore strictReducer observers (counter 0) None) in
  let o := dispatch strictReducer observers (mkAction "RESET" []) c in
  res o = Throw (Error "unknown action") /\
  notified (trace o) = [] /\
  vars o = c /\
  res (getState (vars o)) = Ok (counter 0).
Proof.
  split; [reflexivity|]. split; [reflexivity|].
  exact (reducer_fault_propagates strictReducer observers
           (vars (createStore strictReducer observers (counter 0) None))
           (mkAction "RESET" []) (Error "unknown action") eq_refl eq_refl).
Defined.

(** C3, as stated, fails: a reducer that throws on the tags it does not
    know would throw on [{ type: '@@RENAME_STORE', name: 'x' }], but
    [dispatch] renames the store without applying the reducer and returns. *)
Lemma reducer_fault_not_reached_by_rename :
  let c := vars (createStore strictReducer observers (counter 0) None) in
  strictReducer (currentState c) (rename "x")
    = Throw (Error "unknown action") /\
  res (dispatch strictReducer observers (rename "x") c) = Ok tt /\
  ~ (forall (reducer : Reducer) (call : Listener -> M unit) (c : Closure)
            (a : Action) (e : value),
        reducer (currentState c) a = Throw e ->
        res (dispatch reducer call a c) = Throw e /\
        res (getState (vars (dispatch reducer call a c)))
          = Ok (currentState c)).
Proof.
  cbv zeta. split; [reflexivity|]. split; [reflexivity|].
  intros H.
  destruct (H strictReducer observers
              (vars (createStore strictReducer observers (counter 0) None))
              (rename "x") (Error "unknown action") eq_refl) as [Hres _].
  discriminate Hres.
Qed.

(** C10. If the reducer throws when applied to the supplied state and
    [{ type: '@@INIT' }], [createStore] throws the same value and returns
    no store. *)
Theorem createStore_init_fault (reducer : Reducer)
  (call : Listener -> M unit) (initialState : value)
  (initialName : option string) (e : value) :
  reducer initialState INIT = Throw e ->
  let o := createStore reducer call initialState initialName in
  res o = Throw e /\
  trace o = [Reduce initialState INIT] /\
  forall st, res o <> Ok st.
Proof.
  intros He o. subst o. unfold createStore.
  set (c0 := mkClosure initialState _ []).
  assert (Hd : dispatch reducer call INIT c0 =
               Outcome [Reduce initialState INIT] (Throw e) c0).
  { rewrite dispatch_other by reflexivity.
    now rewrite (reduceAndNotify_throw _ _ _ _ e) by exact He. }
  rewrite (bind_throw _ _ _ e) by (rewrite Hd; reflexivity).
  rewrite Hd. cbn [res trace]. repeat split. discriminate.
Qed.

Lemma createStore_init_fault_witness :
  failingReducer (counter 0) INIT = Throw (Error "not implemented") /\
  res (createStore failingReducer observers (counter 0) None)
    = Throw (Error "not implemented").
Proof.
  split; [reflexivity|].
  exact (proj1 (createStore_init_fault failingReducer observers (counter 0)
                  None (Error "not implemented") eq_refl)).
Defined.

(** C5, as the code has it. For a listener that is not in the array when it
    is subscribed, the function that [subscribe] returns answers [true] at
    its first call and [false] at its second, and the store is then as it
    was before the [subscribe].  In every store that function returns and
    never throws: it answers whether its listener is in the array, takes
    the first entry of it away when it is, and writes nothing when it is
    not. *)
Theorem unsubscribe_twice (c : Closure) (l : Listener) :
  ~ In l (listeners c) ->
  exists off,
    res (subscribe l c) = Ok off /\
    let first := off (vars (subscribe l c)) in
    let second := off (vars first) in
    res first = Ok true /\
    res second = Ok false /\
    vars first = c /\
    vars second = c /\
    forall c',
      (exists b,
          res (off c') = Ok b /\ (b = true <-> In l (listeners c'))) /\
      listeners (vars (off c')) = removeFirst l (listeners c') /\
      (res (off c') = Ok false -> vars (off c') = c').
Proof.
  intros Hl. exists (unsubscribe l). split; [reflexivity|].
  rewrite subscribe_eq. cbn [vars]. rewrite !unsubscribe_eq.
  cbn [vars res set_listeners listeners currentState storeName].
  rewrite removeFirst_push by exact Hl.
  rewrite removeFirst_absent by exact Hl.
  rewrite !set_listeners_twice, set_listeners_same.
  destruct (in_dec Nat.eq_dec l (push l (listeners c))) as [_|Hn].
  2:{ exfalso. apply Hn. unfold push. rewrite in_app_iff. right. now left. }
  destruct (in_dec Nat.eq_dec l (listeners c)) as [Hin|_]; [contradiction|].
  repeat split.
  - rewrite unsubscribe_eq. cbn [res].
    destruct (in_dec Nat.eq_dec l (listeners c')) as [Hin|Hout].
    + exists true. tauto.
    + exists false. split; [reflexivity|]. split; [discriminate|contradiction].
  - now rewrite unsubscribe_eq.
  - rewrite unsubscribe_eq. cbn [res vars].
    destruct (in_dec Nat.eq_dec l (listeners c')) as [Hin|Hout];
      [discriminate|].
    intros _. rewrite removeFirst_absent by exact Hout.
    apply set_listeners_same.
Qed.

Lemma unsubscribe_twice_witness :
  let c := vars (createStore counterReducer observers (counter 0) None) in
  ~ In 7 (listeners c) /\
  exists off,
    res (subscribe 7 c) = Ok off /\
    res (off (vars (subscribe 7 c))) = Ok true /\
    res (off (vars (off (vars (subscribe 7 c))))) = Ok false.
Proof.
  cbv zeta.
  assert (Hl : ~ In 7 (listeners
                         (vars (createStore counterReducer observers
                                  (counter 0) None)))).
  { intros []. }
  split; [exact Hl|].
  destruct (unsubscribe_twice
              (vars (createStore counterReducer observers (counter 0) None))
              7 Hl) as (off & Hoff & H1 & H2 & _).
  exists off. split; [exact Hoff|]. split; [exact H1|exact H2].
Defined.

(** C5, as stated, fails: when a listener is subscribed a second time, the
    function returned answers [true] at its second call too, since an entry
    of its listener is still in the array. *)
Lemma unsubscribe_twice_of_duplicate :
  (let c :=
     snd (run counterReducer observers [Subscribe 7]
            (vars (createStore counterReducer observers (counter 0) None))) in
   listeners c = [7] /\
   res (unsubscribe 7 (vars (subscribe 7 c))) = Ok true /\
   res (unsubscribe 7 (vars (unsubscribe 7 (vars (subscribe 7 c)))))
     = Ok true) /\
  ~ (forall (c : Closure) (l : Listener) (off : M bool),
        res (subscribe l c) = Ok off ->
        res (off (vars (subscribe l c))) = Ok true /\
        res (off (vars (off (vars (subscribe l c))))) = Ok false).
Proof.
  split; [repeat split|].
  intros H.
  destruct (H (mkClosure (counter 0) "default" [7]) 7 (unsubscribe 7) eq_refl)
    as [_ H2].
  discriminate H2.
Qed.

(** ** The hooks *)

Section HookProperties.

Variable useSyncExternalStore :
  (Listener -> M (M bool)) -> M value -> M value -> M value.

(** Under a provider the lookup succeeds and no hook throws on its
    account. *)
Lemma useStoreContext_nearest (st : Store.t) (ctx : StoreContext) :
  Provider st useStoreContext ctx = Ok st.
Proof. reflexivity. Qed.

Lemma useStore_under_provider (st : Store.t) (ctx : StoreContext)
  (c : Closure) :
  useStore useSyncExternalStore (st :: ctx) c =
  useSyncExternalStore (Store.subscribe st) (Store.getState st)
    (Store.getState st) c.
Proof.
  unfold useStore. rewrite bind_lift. reflexivity.
Qed.

Lemma useSelector_under_provider (st : Store.t) (ctx : StoreContext)
  (selector : Selector) (equalityFn : option EqualityFn) (c : Closure) :
  useSelector useSyncExternalStore selector equalityFn (st :: ctx) c =
  useSyncExternalStore (Store.subscribe st)
    (s <- Store.getState st ;; lift (selector s))
    (s <- Store.getState st ;; lift (selector s)) c.
Proof.
  unfold useSelector. rewrite bind_lift. reflexivity.
Qed.

End HookProperties.

(** C8. With no provider around it, each of [useSelector], [useDispatch]
    and [useStore] throws the error of [useStoreContext] at the call,
    before anything is read from or subscribed to a store, and no store is
    returned. *)
Theorem hooks_need_a_provider
  (useSyncExternalStore :
     (Listener -> M (M bool)) -> M value -> M value -> M value)
  (ctx : StoreContext) (selector : Selector)
  (equalityFn : option EqualityFn) (c : Closure) :
  useContext ctx = None ->
  let err := Error "useStoreContext must be used within a StoreProvider" in
  useStoreContext ctx = Throw err /\
  (forall st, useStoreContext ctx <> Ok st) /\
  useSelector useSyncExternalStore selector equalityFn ctx c
    = Outcome [] (Throw err) c /\
  useDispatch ctx c = Outcome [] (Throw err) c /\
  useStore useSyncExternalStore ctx c = Outcome [] (Throw err) c.
Proof.
  intros Hctx err.
  assert (H : useStoreContext ctx = Throw err).
  { unfold useStoreContext. now rewrite Hctx. }
  split; [exact H|]. split; [intros st Hst; congruence|].
  unfold useSelector, useDispatch, useStore.
  rewrite !bind_lift, H. repeat split.
Qed.

Lemma hooks_need_a_provider_witness :
  useContext [] = None /\
  useStoreContext []
    = Throw (Error "useStoreContext must be used within a StoreProvider") /\
  res (useStore clientRender []
         (vars (createStore counterReducer observers (counter 0) None)))
    = Throw (Error "useStoreContext must be used within a StoreProvider").
Proof.
  split; [reflexivity|].
  destruct (hooks_need_a_provider clientRender []
              (fun s => Ok s) None
              (vars (createStore counterReducer observers (counter 0) None))
              eq_refl) as (H1 & _ & _ & _ & H4).
  split; [exact H1|]. now rewrite H4.
Defined.

(** C9. [create(initialState, reducer, name)] creates one store, throwing
    what [createStore] throws, and returns a function bound to that store:
    the snapshot it computes without a selector is [store.getState()] and
    the one it computes with a selector is [selector(store.getState())];
    called without a selector it is [useStore] under a provider of that
    store, and called with a selector it is [useSelector] of that selector
    under a provider of that store, whatever [useSyncExternalStore] does. *)
Theorem create_matches_hooks
  (useSyncExternalStore :
     (Listener -> M (M bool)) -> M value -> M value -> M value)
  (reducer : Reducer) (call : Listener -> M unit) (initialState : value)
  (storeName : option string) :
  let name :=
    match storeName with Some n => n | None => "zustand-store" end in
  let made := createStore reducer call initialState (Some name) in
  let o := create useSyncExternalStore reducer call initialState storeName in
  trace o = trace made /\
  vars o = vars made /\
  match res made with
  | Throw e => res o = Throw e
  | Ok st =>
      st = store reducer call /\
      exists hook,
        res o = Ok hook /\
        forall (equalityFn : option EqualityFn) (c : Closure),
          getSnapshot st None c = Store.getState st c /\
          res (getSnapshot st None c) = Ok (currentState c) /\
          hook None equalityFn c
            = useStore useSyncExternalStore [st] c /\
          forall selector : Selector,
            getSnapshot st (Some selector) c
              = (s <- Store.getState st ;; lift (selector s)) c /\
            res (getSnapshot st (Some selector) c)
              = selector (currentState c) /\
            hook (Some selector) equalityFn c
              = useSelector useSyncExternalStore selector equalityFn [st] c
  end.
Proof.
  intros name made o. subst o. unfold create. fold name. fold made.
  assert (Hmade : forall st, res made = Ok st -> st = store reducer call).
  { subst made. unfold createStore. unfold bind at 1.
    destruct (res (dispatch reducer call INIT _)); cbn [res].
    - intros st H. now inversion H.
    - discriminate. }
  destruct (res made) as [st|e] eqn:Hres; cbn [trace res vars].
  - repeat split; [now apply Hmade|].
    eexists. split; [reflexivity|]. intros equalityFn c.
    rewrite (Hmade st eq_refl).
    split; [reflexivity|]. split; [reflexivity|].
    split; [now rewrite useStore_under_provider|].
    intros selector. split; [reflexivity|]. split.
    + cbn [getSnapshot store Store.getState].
      unfold getState. rewrite bind_gets. reflexivity.
    + now rewrite useSelector_under_provider.
  - repeat split.
Qed.

(** The factory on the counter of the README, rendered on the client. *)
Example create_counter :
  exists hook,
    res (create clientRender counterReducer observers (counter 0) None)
      = Ok hook /\
    let c := snd (run counterReducer observers
                    [Dispatch INCREMENT; Dispatch INCREMENT]
                    (vars (create clientRender counterReducer observers
                             (counter 0) None))) in
    res (hook None None c) = Ok (counter 2) /\
    res (hook (Some (fun s => match s with
                              | VObject props => Ok (get "count" props)
                              | _ => Throw (Error "not an object")
                              end)) None c) = Ok (VNumber 2).
Proof. eexists. repeat split. Qed.

(** * Further properties of the store *)

(** ** Creation *)

Lemma createStore_eq (reducer : Reducer) (call : Listener -> M unit)
  (initialState s0 : value) (initialName : option string) :
  reducer initialState INIT = Ok s0 ->
  createStore reducer call initialState initialName =
  Outcome [Reduce initialState INIT] (Ok (store reducer call))
    (mkClosure s0
       (match initialName with Some n => n | None => "default" end) []).
Proof.
  intros H. unfold createStore.
  set (c0 := mkClosure initialState _ []).
  assert (Hd : dispatch reducer call INIT c0 =
               Outcome [Reduce initialState INIT] (Ok tt)
                       (set_currentState s0 c0)).
  { rewrite dispatch_other by reflexivity.
    rewrite (reduceAndNotify_ok _ _ _ _ s0) by exact H. reflexivity. }
  rewrite (bind_ok _ _ _ tt) by (rewrite Hd; reflexivity).
  rewrite Hd. reflexivity.
Qed.

(** X1. The first state of a store is what the reducer returns for the supplied
    state and [{ type: '@@INIT' }], which need not be the supplied state;
    the name is the one given, or ["default"]; no listener is subscribed
    and none is called. *)
Theorem createStore_first_state (reducer : Reducer)
  (call : Listener -> M unit) (initialState s0 : value)
  (initialName : option string) :
  reducer initialState INIT = Ok s0 ->
  let o := createStore reducer call initialState initialName in
  exists st,
    res o = Ok st /\
    notified (trace o) = [] /\
    res (Store.getState st (vars o)) = Ok s0 /\
    res (Store.getStoreName st (vars o))
      = Ok (match initialName with Some n => n | None => "default" end) /\
    listeners (vars o) = [].
Proof.
  intros H o. subst o. rewrite (createStore_eq _ _ _ s0 _ H).
  eexists. repeat split.
Qed.

(** A reducer that sets the counter to [10] at start-up. *)
Lemma createStore_first_state_witness :
  let reducer : Reducer :=
    fun s a => if String.eqb (type a) "@@INIT" then Ok (counter 10)
               else Ok s in
  reducer (counter 0) INIT = Ok (counter 10) /\
  exists st,
    res (createStore reducer observers (counter 0) None) = Ok st /\
    res (Store.getState st
           (vars (createStore reducer observers (counter 0) None)))
      = Ok (counter 10).
Proof.
  cbv zeta. split; [reflexivity|].
  destruct (createStore_first_state
              (fun s a => if String.eqb (type a) "@@INIT"
                          then Ok (counter 10) else Ok s)
              observers (counter 0) (counter 10) None eq_refl)
    as (st & Hst & _ & Hs & _).
  exists st. split; [exact Hst|exact Hs].
Defined.

(** X2. [create] makes its store with the name given or ["zustand-store"],
    never with the default name of [createStore]; the store starts from
    the reducer's answer to [{ type: '@@INIT' }] with no listener. *)
Theorem create_first_state
  (useSyncExternalStore :
     (Listener -> M (M bool)) -> M value -> M value -> M value)
  (reducer : Reducer) (call : Listener -> M unit)
  (initialState s0 : value) (storeName : option string) :
  reducer initialState INIT = Ok s0 ->
  let o := create useSyncExternalStore reducer call initialState storeName in
  (exists hook, res o = Ok hook) /\
  trace o = [Reduce initialState INIT] /\
  vars o =
    mkClosure s0
      (match storeName with Some n => n | None => "zustand-store" end) [].
Proof.
  intros H o. subst o. unfold create.
  rewrite (createStore_eq reducer call initialState s0 _ H).
  cbn [res trace vars]. split; [eexists; reflexivity|]. split; reflexivity.
Qed.

Lemma create_first_state_witness :
  counterReducer (counter 0) INIT = Ok (counter 0) /\
  vars (create clientRender counterReducer observers (counter 0) None)
    = mkClosure (counter 0) "zustand-store" [].
Proof.
  split; [reflexivity|].
  exact (proj2 (proj2 (create_first_state clientRender counterReducer
                         observers (counter 0) (counter 0) None eq_refl))).
Defined.

(** ** More on the notification pass *)

Lemma notified_map (ls : list Listener) :
  notified (map Notify ls) = ls.
Proof. induction ls as [|l ls IH]; simpl; [reflexivity|now rewrite IH]. Qed.

Lemma skipn_cons_nth_error {A : Type} (ls : list A) :
  forall k x rest,
    skipn k ls = x :: rest ->
    nth_error ls k = Some x /\ skipn (S k) ls = rest.
Proof.
  induction ls as [|y ls IH]; intros [|k] x rest H; simpl in *;
    try discriminate.
  - inversion H. now split.
  - now apply IH.
Qed.

Lemma removeFirst_middle (l : Listener) (pre post : list Listener) :
  ~ In l pre -> removeFirst l (pre ++ l :: post) = pre ++ post.
Proof.
  induction pre as [|y pre IH]; intros Hl; simpl.
  - now rewrite Nat.eqb_refl.
  - destruct (Nat.eqb_spec y l) as [->|_].
    + exfalso. apply Hl. now left.
    + rewrite IH; [reflexivity|]. intros H. apply Hl. now right.
Qed.

Lemma in_split_first (l : Listener) (ls : list Listener) :
  In l ls ->
  exists pre post, ls = pre ++ l :: post /\ ~ In l pre.
Proof.
  induction ls as [|y ls IH]; intros H; [destruct H|].
  destruct (Nat.eq_dec y l) as [->|Hne].
  - exists [], ls. split; [reflexivity|intros []].
  - destruct H as [H|H]; [contradiction|].
    destruct (IH H) as (pre & post & -> & Hpre).
    exists (y :: pre), post. split; [reflexivity|].
    intros [E|E]; [contradiction|now apply Hpre].
Qed.

Section LocalPass.

Variable call : Listener -> M unit.

(** The loop over a stretch of listeners that write nothing: each is
    called, and the loop goes on behind them from the same store. *)
Lemma forEach_loop_quiet_prefix :
  forall pre k n c rest,
    skipn k (listeners c) = pre ++ rest ->
    (forall x, In x pre -> quiet call x) ->
    forEach_loop (invoke call) (List.length pre + n) k c =
    Outcome
      (map Notify pre ++
         trace (forEach_loop (invoke call) n (k + List.length pre) c))
      (res (forEach_loop (invoke call) n (k + List.length pre) c))
      (vars (forEach_loop (invoke call) n (k + List.length pre) c)).
Proof.
  induction pre as [|x pre IH]; intros k n c rest Hk Hq.
  - cbn [List.length plus map app]. rewrite Nat.add_0_r.
    symmetry. apply outcome_eta.
  - cbn [List.length plus]. rewrite forEach_loop_S.
    destruct (skipn_cons_nth_error _ _ _ _ Hk) as [Hx Hrest].
    rewrite Hx, (Hq x (or_introl eq_refl) c). cbv zeta.
    cbn [res vars trace app].
    rewrite (IH (S k) n c rest Hrest)
      by (intros y Hy; apply Hq; now right).
    cbn [trace res vars map app].
    now replace (S k + List.length pre) with (k + S (List.length pre)) by lia.
Qed.

(** The pass over listeners that write nothing. *)
Lemma forEach_quiet (c : Closure) :
  (forall x, In x (listeners c) -> quiet call x) ->
  forEach (invoke call) c = Outcome (map Notify (listeners c)) (Ok tt) c.
Proof.
  intros Hq. rewrite forEach_eq.
  replace (List.length (listeners c)) with (List.length (listeners c) + 0)
    by lia.
  rewrite (forEach_loop_quiet_prefix (listeners c) 0 0 c []);
    [|cbn [skipn]; now rewrite app_nil_r|exact Hq].
  cbn [forEach_loop]. unfold ret. cbn [trace res vars].
  now rewrite app_nil_r.
Qed.

(** The pass up to a listener that throws: the listeners before it are
    called, it is called, and the pass ends there. *)
Lemma forEach_fault (c : Closure) (pre post : list Listener) (l : Listener)
  (e : value) :
  listeners c = pre ++ l :: post ->
  (forall x, In x pre -> quiet call x) ->
  res (call l c) = Throw e ->
  forEach (invoke call) c =
  Outcome (map Notify pre ++ Notify l :: trace (call l c)) (Throw e)
          (vars (call l c)).
Proof.
  intros Hls Hq He. rewrite forEach_eq, Hls.
  rewrite length_app. cbn [List.length].
  rewrite (forEach_loop_quiet_prefix pre 0 _ c (l :: post));
    [|cbn [skipn]; assumption|assumption].
  cbn [plus]. rewrite forEach_loop_S.
  assert (Hl : nth_error (listeners c) (List.length pre) = Some l).
  { rewrite Hls, nth_error_app2 by lia. now rewrite Nat.sub_diag. }
  rewrite Hl. cbv zeta. rewrite He. reflexivity.
Qed.

End LocalPass.







Section Appending.

Variable call : Listener -> M unit.
Hypothesis Ha : appending call.

(** The loop reads the length once: entries pushed while it runs lie
    beyond the indices it visits. [L] is the array when the pass began. *)
Lemma forEach_loop_appending :
  forall n k c L ext,
    listeners c = L ++ ext ->
    k + n <= List.length L ->
    res (forEach_loop (invoke call) n k c) = Ok tt /\
    trace (forEach_loop (invoke call) n k c)
      = map Notify (firstn n (skipn k L)) /\
    exists ext',
      listeners (vars (forEach_loop (invoke call) n k c)) = L ++ ext'.
Proof.
  induction n as [|n IH]; intros k c L ext Hc Hk.
  - repeat split. now exists ext.
  - rewrite forEach_loop_S.
    destruct (nth_error L k) as [x|] eqn:Hx.
    2:{ apply nth_error_None in Hx. lia. }
    assert (Hx' : nth_error (listeners c) k = Some x).
    { rewrite Hc, nth_error_app1; [exact Hx|lia]. }
    rewrite Hx'. destruct (Ha x c) as (Hr & Ht & extra & Hl).
    cbv zeta. rewrite Hr, Ht. cbn [res vars trace app].
    destruct (IH (S k) (vars (call x c)) L (ext ++ extra)) as (Hr' & Ht' & He').
    { now rewrite Hl, Hc, app_assoc. }
    { lia. }
    rewrite Hr', Ht'. rewrite (skipn_nth_error _ _ _ Hx).
    repeat split. exact He'.
Qed.

Lemma forEach_appending (c : Closure) :
  res (forEach (invoke call) c) = Ok tt /\
  trace (forEach (invoke call) c) = map Notify (listeners c) /\
  exists ext, listeners (vars (forEach (invoke call) c)) = listeners c ++ ext.
Proof.
  rewrite forEach_eq.
  destruct (forEach_loop_appending (List.length (listeners c)) 0 c
              (listeners c) []) as (Hr & Ht & He).
  { now rewrite app_nil_r. }
  { lia. }
  rewrite Hr, Ht. cbn [skipn]. now rewrite firstn_all.
Qed.

End Appending.

(** X6. Listeners that subscribe others while they are notified: a dispatch
    that the reducer does not fail calls exactly the entries that were in
    the array when the pass began, each once and in order; the entries
    pushed during the pass are not called by it, and are in the array
    behind the old ones afterwards. *)
Theorem pass_ignores_pushed_listeners (reducer : Reducer)
  (call : Listener -> M unit) (c : Closure) (a : Action) :
  appending call ->
  (renameTarget a <> None \/ exists s', reducer (currentState c) a = Ok s') ->
  let o := dispatch reducer call a c in
  res o = Ok tt /\
  notified (trace o) = listeners c /\
  exists pushed, listeners (vars o) = listeners c ++ pushed.
Proof.
  intros Ha Hnf o. subst o.
  destruct (renameTarget a) as [name|] eqn:Hn.
  - rewrite (dispatch_rename _ _ _ _ _ Hn), setStoreName_eq.
    destruct (forEach_appending call Ha (set_storeName name c))
      as (Hr & Ht & He).
    rewrite Hr, Ht, notified_map. repeat split. exact He.
  - destruct Hnf as [Hnf|[s' Hs']]; [congruence|].
    rewrite (dispatch_other _ _ _ _ Hn), (reduceAndNotify_ok _ _ _ _ _ Hs').
    cbv zeta. cbn [res vars trace notified].
    destruct (forEach_appending call Ha (set_currentState s' c))
      as (Hr & Ht & He).
    rewrite Hr, Ht, notified_map. repeat split. exact He.
Qed.

Lemma subscribing_appending (extra : Listener) : appending (subscribing extra).
Proof.
  intros l c. repeat split. exists [extra]. reflexivity.
Qed.

Lemma pass_ignores_pushed_listeners_witness :
  appending (subscribing 9) /\
  let c := mkClosure (counter 0) "default" [0; 1] in
  let o := dispatch counterReducer (subscribing 9) INCREMENT c in
  notified (trace o) = [0; 1] /\
  listeners (vars o) = [0; 1; 9; 9].
Proof.
  split; [apply subscribing_appending|]. cbv zeta.
  split; [|reflexivity].
  exact (proj1 (proj2 (pass_ignores_pushed_listeners counterReducer
                         (subscribing 9)
                         (mkClosure (counter 0) "default" [0; 1]) INCREMENT
                         (subscribing_appending 9)
                         (or_intror (ex_intro _ (counter 1) eq_refl))))).
Defined.

(** X7. A listener that unsubscribes itself when called, registered once: the
    pass of a dispatch calls the listeners before it, calls it, and then
    misses exactly the listener that stood right behind it; every later one
    is called.  The array afterwards is the old one without the listener. *)
Theorem pass_after_self_removal (reducer : Reducer) (c : Closure)
  (a : Action) (s' : value) (pre post : list Listener) (l : Listener) :
  renameTarget a = None ->
  reducer (currentState c) a = Ok s' ->
  listeners c = pre ++ l :: post ->
  ~ In l pre ->
  ~ In l post ->
  let o := dispatch reducer (selfRemoving l) a c in
  res o = Ok tt /\
  notified (trace o) = pre ++ l :: tl post /\
  listeners (vars o) = pre ++ post /\
  res (getState (vars o)) = Ok s'.
Proof.
  intros Hn Hr Hls Hpre Hpost o. subst o.
  assert (Hq : forall ls x, ~ In l ls -> In x ls -> quiet (selfRemoving l) x).
  { intros ls x Hl Hx c'. unfold selfRemoving.
    destruct (Nat.eqb_spec x l) as [->|_]; [contradiction|reflexivity]. }
  rewrite dispatch_other by exact Hn.
  rewrite (reduceAndNotify_ok _ _ _ _ s') by exact Hr. cbv zeta.
  set (c1 := set_currentState s' c).
  assert (Hc1 : listeners c1 = pre ++ l :: post) by exact Hls.
  rewrite forEach_eq, Hc1, length_app. cbn [List.length].
  rewrite (forEach_loop_quiet_prefix _ pre 0 _ c1 (l :: post));
    [|exact Hc1|exact (fun x => Hq pre x Hpre)].
  cbn [plus]. rewrite forEach_loop_S.
  assert (Hl : nth_error (listeners c1) (List.length pre) = Some l).
  { rewrite Hc1, nth_error_app2 by lia. now rewrite Nat.sub_diag. }
  rewrite Hl. cbv zeta.
  assert (Hcall : selfRemoving l l c1 =
                  Outcome [] (Ok tt) (set_listeners (pre ++ post) c1)).
  { unfold selfRemoving. rewrite Nat.eqb_refl. unfold bind.
    rewrite unsubscribe_eq. cbn [res vars trace].
    now rewrite Hc1, removeFirst_middle. }
  rewrite Hcall. cbn [res vars trace app].
  set (c2 := set_listeners (pre ++ post) c1).
  destruct post as [|y post].
  - cbn [List.length forEach_loop]. unfold ret. cbn [trace res vars tl].
    cbn [notified]. rewrite notified_app, notified_map.
    cbn [notified app]. repeat split.
  - cbn [List.length].
    replace (S (List.length post)) with (List.length post + 1) by lia.
    rewrite (forEach_loop_quiet_prefix _ post (S (List.length pre)) 1 c2 []).
    + rewrite forEach_loop_S.
      assert (Hend : nth_error (listeners c2)
                       (S (List.length pre) + List.length post) = None).
      { apply nth_error_None. subst c2. cbn [listeners set_listeners].
        rewrite length_app. cbn [List.length]. lia. }
      rewrite Hend. cbn [forEach_loop]. unfold ret. cbn [trace res vars tl].
      rewrite app_nil_r. cbn [notified]. rewrite notified_app, notified_map.
      cbn [notified]. rewrite notified_map. repeat split.
    + subst c2. cbn [listeners set_listeners].
      rewrite skipn_app, skipn_all2 by lia.
      replace (S (List.length pre) - List.length pre) with 1 by lia.
      cbn [skipn app]. now rewrite app_nil_r.
    + intros x Hx. apply (Hq (y :: post)); [exact Hpost|now right].
Qed.

Lemma pass_after_self_removal_witness :
  let c := mkClosure (counter 0) "default" [4; 7; 5; 6] in
  renameTarget INCREMENT = None /\
  ~ In 7 [4] /\
  ~ In 7 [5; 6] /\
  let o := dispatch counterReducer (selfRemoving 7) INCREMENT c in
  notified (trace o) = [4; 7; 6] /\
  listeners (vars o) = [4; 5; 6].
Proof.
  cbv zeta.
  assert (H1 : ~ In 7 [4]) by (intros [E|[]]; discriminate E).
  assert (H2 : ~ In 7 [5; 6])
    by (intros [E|[E|[]]]; discriminate E).
  split; [reflexivity|]. split; [exact H1|]. split; [exact H2|].
  destruct (pass_after_self_removal counterReducer
              (mkClosure (counter 0) "default" [4; 7; 5; 6]) INCREMENT
              (counter 1) [4] [5; 6] 7 eq_refl eq_refl eq_refl H1 H2)
    as (_ & Ht & Hl & _).
  split; [exact Ht|exact Hl].
Defined.

(** ** Subscriptions *)

(** X8. The function returned by [subscribe(l)], called in any store: when [l]
    is in the array it answers [true] and takes away the earliest entry of
    [l], every other entry staying in its order; when [l] is not in the
    array it answers [false].  It never throws, calls no listener and no
    reducer, and writes neither the state nor the name. *)
Theorem unsubscribe_removes_earliest (l : Listener) (c : Closure) :
  let o := unsubscribe l c in
  trace o = [] /\
  currentState (vars o) = currentState c /\
  storeName (vars o) = storeName c /\
  (In l (listeners c) ->
   res o = Ok true /\
   exists pre post,
     listeners c = pre ++ l :: post /\
     ~ In l pre /\
     listeners (vars o) = pre ++ post) /\
  (~ In l (listeners c) -> res o = Ok false /\ vars o = c).
Proof.
  cbv zeta. rewrite unsubscribe_eq. cbn [trace res vars].
  do 3 (split; [reflexivity|]). split.
  - intros Hin.
    destruct (in_dec Nat.eq_dec l (listeners c)) as [_|Hn]; [|contradiction].
    split; [reflexivity|].
    destruct (in_split_first l (listeners c) Hin) as (pre & post & Hls & Hpre).
    exists pre, post. split; [exact Hls|]. split; [exact Hpre|].
    cbn [listeners set_listeners]. now rewrite Hls, removeFirst_middle.
  - intros Hout.
    destruct (in_dec Nat.eq_dec l (listeners c)) as [Hin|_]; [contradiction|].
    split; [reflexivity|].
    rewrite removeFirst_absent by exact Hout. apply set_listeners_same.
Qed.

Lemma unsubscribe_removes_earliest_witness :
  let c := mkClosure (counter 0) "default" [3; 7; 4; 7] in
  In 7 (listeners c) /\
  res (unsubscribe 7 c) = Ok true /\
  listeners (vars (unsubscribe 7 c)) = [3; 4; 7].
Proof.
  cbv zeta.
  assert (H : In 7 (listeners (mkClosure (counter 0) "default" [3; 7; 4; 7])))
    by (right; left; reflexivity).
  split; [exact H|].
  destruct (unsubscribe_removes_earliest 7
              (mkClosure (counter 0) "default" [3; 7; 4; 7]))
    as (_ & _ & _ & Hin & _).
  split; [exact (proj1 (Hin H))|reflexivity].
Defined.

(** X9. Subscribing a listener that is already in the array and calling the
    function returned at once does not undo the [subscribe]: the earlier
    entry is the one removed, so the listener now stands last. *)
Theorem unsubscribe_after_duplicate_subscribe (l : Listener) (c : Closure)
  (pre post : list Listener) :
  listeners c = pre ++ l :: post ->
  ~ In l pre ->
  exists off,
    res (subscribe l c) = Ok off /\
    res (off (vars (subscribe l c))) = Ok true /\
    listeners (vars (off (vars (subscribe l c)))) = pre ++ post ++ [l].
Proof.
  intros Hls Hpre. exists (unsubscribe l). split; [reflexivity|].
  rewrite subscribe_eq. cbn [vars]. rewrite unsubscribe_eq.
  cbn [res vars listeners set_listeners]. unfold push. rewrite Hls.
  destruct (in_dec Nat.eq_dec l ((pre ++ l :: post) ++ [l])) as [_|Hn].
  2:{ exfalso. apply Hn. rewrite !in_app_iff. left. right. now left. }
  split; [reflexivity|].
  rewrite <- app_assoc. cbn [app]. now rewrite removeFirst_middle.
Qed.

Lemma unsubscribe_after_duplicate_subscribe_witness :
  let c := mkClosure (counter 0) "default" [3; 7; 4] in
  listeners c = [3] ++ 7 :: [4] /\
  ~ In 7 [3] /\
  listeners (vars (unsubscribe 7 (vars (subscribe 7 c)))) = [3; 4; 7].
Proof.
  cbv zeta.
  assert (H : ~ In 7 [3]) by (intros [E|[]]; discriminate E).
  split; [reflexivity|]. split; [exact H|].
  destruct (unsubscribe_after_duplicate_subscribe 7
              (mkClosure (counter 0) "default" [3; 7; 4]) [3] [4]
              eq_refl H) as (off & Hoff & _ & Hl).
  inversion Hoff. subst off. exact Hl.
Defined.

Section Registrations.

Variable reducer : Reducer.
Variable call : Listener -> M unit.

Lemma run_subscribes (l : Listener) :
  forall n c,
    run reducer call (repeat (Subscribe l) n) c =
    ([], set_listeners (listeners c ++ repeat l n) c).
Proof.
  induction n as [|n IH]; intros c; cbn [repeat run].
  - now rewrite app_nil_r, set_listeners_same.
  - rewrite IH. cbn [perform]. unfold bind. rewrite subscribe_eq.
    unfold ret, push. cbn [res vars trace app listeners set_listeners].
    now rewrite <- app_assoc.
Qed.

Lemma removeFirst_repeat (l : Listener) (ls : list Listener) (m : nat) :
  ~ In l ls ->
  removeFirst l (ls ++ repeat l m) = ls ++ repeat l (Nat.pred m).
Proof.
  intros Hl. destruct m as [|m]; cbn [repeat Nat.pred].
  - rewrite app_nil_r. now apply removeFirst_absent.
  - now apply removeFirst_middle.
Qed.

Lemma run_unsubscribes (l : Listener) (ls : list Listener) :
  ~ In l ls ->
  forall k m c,
    listeners c = ls ++ repeat l m ->
    run reducer call (repeat (Unsubscribe l) k) c =
    ([], set_listeners (ls ++ repeat l (m - k)) c).
Proof.
  intros Hl. induction k as [|k IH]; intros m c Hc; cbn [repeat run].
  - now rewrite Nat.sub_0_r, <- Hc, set_listeners_same.
  - rewrite perform_unsubscribe. cbn [vars trace app].
    rewrite Hc, (removeFirst_repeat l ls m Hl).
    rewrite (IH (Nat.pred m)) by reflexivity.
    rewrite set_listeners_twice.
    now replace (Nat.pred m - k) with (m - S k) by lia.
Qed.

End Registrations.

(** ** The name *)

(** X12. Only a rename with a string [name] changes the name: after any
    sequence of dispatches, whether the reducer returns or throws on them,
    [getStoreName()] is the name carried by the last such rename in the
    sequence, or the name from before when there is none.  The store is one
    that has no listener or whose listeners write neither the state nor the
    name. *)
Theorem name_after_dispatches (reducer : Reducer)
  (call : Listener -> M unit) (actions : list Action) :
  forall c,
    undisturbed call c ->
    res (getStoreName (snd (run reducer call (map Dispatch actions) c)))
      = Ok (lastRename (storeName c) actions).
Proof.
  induction actions as [|a actions IH]; intros c Hu; [reflexivity|].
  cbn [map run perform].
  specialize (IH _ (dispatch_undisturbed call reducer a c Hu)).
  destruct (run reducer call (map Dispatch actions)
              (vars (dispatch reducer call a c))) as [t c'].
  cbn [snd] in *. rewrite IH. unfold lastRename. cbn [fold_left].
  pose proof (dispatch_step call reducer a c Hu) as Hstep.
  destruct (renameTarget a) as [name|].
  - destruct Hstep as [_ Hn]. now rewrite Hn.
  - destruct (reducer (currentState c) a) as [s'|e].
    + destruct Hstep as [_ Hn]. now rewrite Hn.
    + now rewrite Hstep.
Qed.

Lemma name_after_dispatches_witness :
  let c := vars (createStore strictReducer observers (counter 0) (Some "a")) in
  undisturbed observers c /\
  res (getStoreName
         (snd (run strictReducer observers
                 (map Dispatch
                    [rename "b"; INCREMENT; rename "c"; mkAction "RESET" [];
                     mkAction "@@RENAME_STORE" [("name", VNumber 1)]])
                 c))) = Ok "c".
Proof.
  cbv zeta. split; [left; reflexivity|].
  exact (name_after_dispatches strictReducer observers
           [rename "b"; INCREMENT; rename "c"; mkAction "RESET" [];
            mkAction "@@RENAME_STORE" [("name", VNumber 1)]]
           (vars (createStore strictReducer observers (counter 0) (Some "a")))
           (or_introl eq_refl)).
Defined.

(** ** More on the hooks *)

(** X13. Providers nest, and the nearest one wins: under a provider of [inner],
    itself under any other providers, the lookup returns [inner], and each
    hook does what it does under a provider of [inner] alone; [useDispatch]
    returns the [dispatch] of [inner] itself, reading and writing nothing. *)
Theorem hooks_use_nearest_provider
  (useSyncExternalStore :
     (Listener -> M (M bool)) -> M value -> M value -> M value)
  (inner outer : Store.t) (ctx : StoreContext) (selector : Selector)
  (equalityFn : option EqualityFn) (c : Closure) :
  Provider outer (Provider inner useStoreContext) ctx = Ok inner /\
  Provider outer
    (Provider inner (useSelector useSyncExternalStore selector equalityFn))
    ctx c
  = useSelector useSyncExternalStore selector equalityFn [inner] c /\
  Provider outer (Provider inner (useStore useSyncExternalStore)) ctx c
  = useStore useSyncExternalStore [inner] c /\
  Provider outer (Provider inner useDispatch) ctx c
  = Outcome [] (Ok (Store.dispatch inner)) c.
Proof.
  unfold Provider. split; [reflexivity|].
  rewrite !useSelector_under_provider, !useStore_under_provider.
  do 2 (split; [reflexivity|]).
  unfold useDispatch. now rewrite bind_lift.
Qed.

(** X14. [equalityFn] has no effect: [useSelector], and the function that
    [create] returns, do the same whatever equality function they are
    given, or when given none; it is not passed on to
    [useSyncExternalStore]. *)
Theorem equalityFn_is_ignored
  (useSyncExternalStore :
     (Listener -> M (M bool)) -> M value -> M value -> M value)
  (reducer : Reducer) (call : Listener -> M unit) (initialState : value)
  (storeName : option string)
  (hook : option Selector -> option EqualityFn -> M value) :
  res (create useSyncExternalStore reducer call initialState storeName)
    = Ok hook ->
  forall (equalityFn equalityFn' : option EqualityFn),
    (forall selector ctx,
        useSelector useSyncExternalStore selector equalityFn ctx
        = useSelector useSyncExternalStore selector equalityFn' ctx) /\
    (forall selector,
        hook selector equalityFn = hook selector equalityFn').
Proof.
  intros Hhook equalityFn equalityFn'. split; [reflexivity|].
  unfold create in Hhook.
  destruct (res (createStore reducer call initialState _)) as [st|e];
    cbn [res] in Hhook; [|discriminate].
  inversion Hhook. reflexivity.
Qed.

Lemma equalityFn_is_ignored_witness :
  exists hook,
    res (create clientRender counterReducer observers (counter 0) None)
      = Ok hook /\
    hook None (Some (fun _ _ => true)) = hook None (Some (fun _ _ => false)).
Proof.
  eexists. split; [reflexivity|].
  exact (proj2 (equalityFn_is_ignored clientRender counterReducer observers
                  (counter 0) None _ eq_refl
                  (Some (fun _ _ => true)) (Some (fun _ _ => false)))
           None).
Defined.

(** * The store when listeners call back into it *)

(** ** Listeners that are not subscribed *)

Section Absent.

Variable reducer : Reducer.
Variable call : Listener -> M unit.
Variable l : Listener.
Hypothesis Hav : avoids l call.

(** A pass over an array without [l] does not call [l] and leaves the
    array without it, however the listeners behave otherwise and however
    the pass ends. *)
Lemma forEach_loop_absent :
  forall n k c,
    ~ In l (listeners c) ->
    ~ In l (notified (trace (forEach_loop (invoke call) n k c))) /\
    ~ In l (listeners (vars (forEach_loop (invoke call) n k c))).
Proof.
  induction n as [|n IH]; intros k c Hl; [split; [intros []|exact Hl]|].
  rewrite forEach_loop_S.
  destruct (nth_error (listeners c) k) as [x|] eqn:Hx; [|now apply IH].
  assert (Hxl : x <> l).
  { intros ->. apply Hl. exact (nth_error_In _ _ Hx). }
  destruct (Hav x c Hl) as [Ht Hls]. cbv zeta.
  destruct (res (call x c)) as [[]|e]; cbn [trace vars notified].
  - destruct (IH (S k) (vars (call x c)) Hls) as [Ht' Hls'].
    split; [|exact Hls'].
    rewrite notified_app. intros [E|E]; [contradiction|].
    apply in_app_iff in E. tauto.
  - split; [|exact Hls]. intros [E|E]; [contradiction|tauto].
Qed.

Lemma forEach_absent (c : Closure) :
  ~ In l (listeners c) ->
  ~ In l (notified (trace (forEach (invoke call) c))) /\
  ~ In l (listeners (vars (forEach (invoke call) c))).
Proof. intros Hl. rewrite forEach_eq. now apply forEach_loop_absent. Qed.

Lemma dispatch_absent (a : Action) (c : Closure) :
  ~ In l (listeners c) ->
  ~ In l (notified (trace (dispatch reducer call a c))) /\
  ~ In l (listeners (vars (dispatch reducer call a c))).
Proof.
  intros Hl. destruct (renameTarget a) as [name|] eqn:Ha.
  - rewrite (dispatch_rename _ _ _ _ _ Ha), setStoreName_eq.
    now apply forEach_absent.
  - rewrite (dispatch_other _ _ _ _ Ha).
    destruct (reducer (currentState c) a) as [s'|e] eqn:Hr.
    + rewrite (reduceAndNotify_ok _ _ _ _ _ Hr). cbv zeta.
      cbn [trace vars notified]. now apply forEach_absent.
    + rewrite (reduceAndNotify_throw _ _ _ _ _ Hr). cbn [trace vars notified].
      split; [intros []|exact Hl].
Qed.

(** A listener that is not in the array is not called by a call on the
    store, and is not in the array afterwards unless the call subscribes
    it. *)
Lemma perform_absent (r : request) (c : Closure) :
  ~ In l (listeners c) ->
  registers l r = false ->
  ~ In l (notified (trace (perform reducer call r c))) /\
  ~ In l (listeners (vars (perform reducer call r c))).
Proof.
  intros Hl Hr. destruct r as [| |n|a|l'|l'].
  - split; [intros []|exact Hl].
  - split; [intros []|exact Hl].
  - cbn [perform]. rewrite setStoreName_eq. now apply forEach_absent.
  - cbn [perform]. now apply dispatch_absent.
  - cbn [perform registers] in *. split; [intros []|].
    cbn. unfold push. rewrite in_app_iff. intros [H|[H|[]]]; [now apply Hl|].
    subst l'. now rewrite Nat.eqb_refl in Hr.
  - rewrite perform_unsubscribe. split; [intros []|].
    cbn [vars set_listeners listeners]. intros H.
    now apply Hl, (removeFirst_incl l').
Qed.

Lemma run_absent :
  forall rs c,
    ~ In l (listeners c) ->
    forallb (fun r => negb (registers l r)) rs = true ->
    ~ In l (notified (fst (run reducer call rs c))).
Proof.
  induction rs as [|r rs IH]; intros c Hl Hrs; [intros []|].
  cbn [forallb] in Hrs. apply andb_prop in Hrs. destruct Hrs as [Hr Hrs].
  apply negb_true_iff in Hr.
  destruct (perform_absent r c Hl Hr) as [Hn Hl'].
  cbn [run]. specialize (IH _ Hl' Hrs).
  destruct (run reducer call rs (vars (perform reducer call r c))) as [t c'].
  cbn [fst] in *. rewrite notified_app, in_app_iff. tauto.
Qed.

End Absent.

Lemma observers_appending : appending observers.
Proof.
  intros l c. repeat split. exists []. now rewrite app_nil_r.
Qed.

(** ** Listeners *)




(** ** The state and the name *)

(** C1, as stated, fails: listeners run inside [dispatch], after the state
    is written, and may dispatch themselves.  With a listener subscribed
    that dispatches an increment while the count is below [2], one dispatch
    of an increment from [{ count: 0 }] leaves [{ count: 2 }], where the
    reducer applied to the state before and the action gives
    [{ count: 1 }]. *)
Lemma dispatch_state_with_reentrant_listener :
  (forall n,
     let call := reentrant (S (S n)) in
     let c :=
       snd (run counterReducer call [Subscribe 0]
              (vars (createStore counterReducer call (counter 0) None))) in
     res (getState c) = Ok (counter 0) /\
     counterReducer (counter 0) INCREMENT = Ok (counter 1) /\
     res (getState (snd (run counterReducer call (map Dispatch [INCREMENT])
                           c))) = Ok (counter 2)) /\
  ~ (forall (reducer : Reducer) (call : Listener -> M unit) (c : Closure)
            (actions : list Action) (i : nat) (a : Action),
        nth_error actions i = Some a ->
        let before :=
          snd (run reducer call (map Dispatch (firstn i actions)) c) in
        let after :=
          snd (run reducer call (map Dispatch (firstn (S i) actions)) c) in
        match renameTarget a with
        | Some name =>
            res (getState after) = res (getState before) /\
            res (getStoreName after) = Ok name
        | None =>
            forall s',
              reducer (currentState before) a = Ok s' ->
              res (getState after) = Ok s'
        end).
Proof.
  split; [intros n; repeat split|].
  intros H.
  specialize (H counterReducer (reentrant 2)
                (mkClosure (counter 0) "default" [0]) [INCREMENT] 0 INCREMENT
                eq_refl (counter 1) eq_refl).
  vm_compute in H. discriminate H.
Qed.

(** C6, as the code has it. [setStoreName(newName)] writes the name and
    runs the notification pass that a dispatch runs, and nothing else.  In
    a store that has no listener or whose listeners write neither the state
    nor the name, [getStoreName()] is then [newName] and [getState()] is as
    before.  When the listeners return and, while they are notified,
    neither unsubscribe nor call [dispatch] or [setStoreName], the pass
    calls every entry of the array once, in order.  The dispatch of a
    rename with a string [name] is that call of [setStoreName]: the reducer
    is not applied, and [getState()] is as before under the same condition
    on the listeners. *)
Theorem setStoreName_frame (call : Listener -> M unit) (c : Closure)
  (newName : string) :
  let o := setStoreName call newName c in
  o = forEach (invoke call) (set_storeName newName c) /\
  (undisturbed call c ->
   res (getStoreName (vars o)) = Ok newName /\
   res (getState (vars o)) = res (getState c)) /\
  (appending call ->
   res o = Ok tt /\
   trace o = map Notify (listeners c) /\
   exists pushed, listeners (vars o) = listeners c ++ pushed) /\
  (forall (reducer : Reducer) (a : Action),
      renameTarget a = Some newName ->
      dispatch reducer call a c = o /\
      (undisturbed call c ->
       res (getState (vars (dispatch reducer call a c)))
         = res (getState c))).
Proof.
  cbv zeta.
  assert (Hst : undisturbed call c ->
                res (getStoreName (vars (setStoreName call newName c)))
                  = Ok newName /\
                res (getState (vars (setStoreName call newName c)))
                  = res (getState c)).
  { intros Hu. rewrite setStoreName_eq.
    destruct (forEach_undisturbed call (set_storeName newName c) Hu)
      as (Hs & Hn & _).
    unfold getStoreName, getState, gets. cbn [res]. now rewrite Hs, Hn. }
  split; [apply setStoreName_eq|]. split; [exact Hst|]. split.
  - intros Ha. rewrite setStoreName_eq.
    exact (forEach_appending call Ha (set_storeName newName c)).
  - intros reducer a Ha.
    rewrite (dispatch_rename call reducer a newName c Ha).
    split; [reflexivity|]. intros Hu. exact (proj2 (Hst Hu)).
Qed.

Lemma setStoreName_frame_witness :
  let c :=
    snd (run counterReducer observers
           [Dispatch INCREMENT; Subscribe 0; Subscribe 1]
           (vars (createStore counterReducer observers (counter 0) None))) in
  undisturbed observers c /\
  appending observers /\
  let o := setStoreName observers "x" c in
  res (getStoreName (vars o)) = Ok "x" /\
  res (getState (vars o)) = Ok (counter 1) /\
  trace o = [Notify 0; Notify 1] /\
  renameTarget (rename "x") = Some "x" /\
  dispatch counterReducer observers (rename "x") c = o.
Proof.
  split; [right; exact observers_passive|].
  split; [exact observers_appending|].
  destruct (setStoreName_frame observers
              (snd (run counterReducer observers
                      [Dispatch INCREMENT; Subscribe 0; Subscribe 1]
                      (vars (createStore counterReducer observers
                               (counter 0) None)))) "x")
    as (_ & Hst & Hpass & Hd).
  destruct (Hst (or_intror observers_passive)) as [Hn Hs].
  split; [exact Hn|]. split; [exact Hs|].
  split; [exact (proj1 (proj2 (Hpass observers_appending)))|].
  split; [reflexivity|].
  exact (proj1 (Hd counterReducer (rename "x") eq_refl)).
Defined.

(** C6, as stated, fails: the pass runs the listeners, and what they do is
    done before [setStoreName] returns.  With a listener that dispatches an
    increment while the count is below [2], [setStoreName] on
    [{ count: 0 }] leaves [{ count: 2 }] and calls the listener three
    times; so does the dispatch of a rename.  With a listener that
    unsubscribes itself, the listener behind it is not called. *)
Lemma setStoreName_with_reentrant_listener :
  (forall n,
     let c := mkClosure (counter 0) "default" [0] in
     let o := setStoreName (reentrant (S (S (S n)))) "x" c in
     res o = Ok tt /\
     res (getState (vars o)) = Ok (counter 2) /\
     notified (trace o) = [0; 0; 0] /\
     dispatch counterReducer (reentrant (S (S (S n)))) (rename "x") c = o) /\
  (let c := mkClosure (counter 0) "default" [0; 1] in
   notified (trace (setStoreName once "x" c)) = [0]) /\
  ~ (forall (call : Listener -> M unit) (c : Closure) (newName : string),
        res (getState (vars (setStoreName call newName c)))
          = res (getState c)) /\
  ~ (forall (call : Listener -> M unit) (c : Closure) (newName : string),
        notified (trace (setStoreName call newName c)) = listeners c) /\
  ~ (forall (reducer : Reducer) (call : Listener -> M unit) (c : Closure)
            (a : Action) (name : string),
        renameTarget a = Some name ->
        res (getState (vars (dispatch reducer call a c)))
          = res (getState c)).
Proof.
  split; [intros n; repeat split|]. split; [reflexivity|]. split; [|split].
  - intros H.
    specialize (H (reentrant 3) (mkClosure (counter 0) "default" [0]) "x").
    vm_compute in H. discriminate H.
  - intros H.
    specialize (H once (mkClosure (counter 0) "default" [0; 1]) "x").
    vm_compute in H. discriminate H.
  - intros H.
    specialize (H counterReducer (reentrant 3)
                  (mkClosure (counter 0) "default" [0]) (rename "x") "x"
                  eq_refl).
    vm_compute in H. discriminate H.
Qed.

(** C7, as the code has it. A dispatched action with the tag
    ['@@RENAME_STORE'] whose [name] is missing or not a string goes the way
    of every other action: the reducer is applied to the current state and
    the action; when it returns, what it returns is written as the state
    and the pass runs over the listeners, the name not being written; when
    it throws, [dispatch] throws the same and nothing is written.  In a
    store that has no listener or whose listeners write neither the state
    nor the name, [getState()] afterwards is what the reducer returned, so
    the state from before when the reducer returns the state it is given,
    and [getStoreName()] is as before. *)
Theorem malformed_rename_reaches_reducer (reducer : Reducer)
  (call : Listener -> M unit) (a : Action) (c : Closure) :
  type a = "@@RENAME_STORE" ->
  typeof (get "name" (fields a)) <> "string" ->
  let o := dispatch reducer call a c in
  o = reduceAndNotify reducer call a c /\
  match reducer (currentState c) a with
  | Ok s' =>
      o = Outcome
            (Reduce (currentState c) a
               :: trace (forEach (invoke call) (set_currentState s' c)))
            (res (forEach (invoke call) (set_currentState s' c)))
            (vars (forEach (invoke call) (set_currentState s' c))) /\
      ((forall x, In x (listeners c) -> quiet call x) ->
       o = Outcome (Reduce (currentState c) a :: map Notify (listeners c))
                   (Ok tt) (set_currentState s' c)) /\
      (undisturbed call c -> res (getState (vars o)) = Ok s')
  | Throw e => o = Outcome [Reduce (currentState c) a] (Throw e) c
  end /\
  (undisturbed call c ->
   res (getStoreName (vars o)) = Ok (storeName c) /\
   (reducer (currentState c) a = Ok (currentState c) ->
    res (getState (vars o)) = Ok (currentState c))).
Proof.
  intros Htag Hname o.
  assert (Ha : renameTarget a = None).
  { unfold renameTarget. rewrite Htag. cbn.
    destruct (get "name" (fields a)); try reflexivity.
    now contradiction Hname. }
  subst o. split; [now apply dispatch_other|].
  assert (Hstep : undisturbed call c ->
                  match reducer (currentState c) a with
                  | Ok s' =>
                      currentState (vars (dispatch reducer call a c)) = s' /\
                      storeName (vars (dispatch reducer call a c))
                        = storeName c
                  | Throw e =>
                      dispatch reducer call a c =
                      Outcome [Reduce (currentState c) a] (Throw e) c
                  end).
  { intros Hu. pose proof (dispatch_step call reducer a c Hu) as H.
    now rewrite Ha in H. }
  rewrite (dispatch_other _ _ _ _ Ha) in *.
  unfold getStoreName, getState, gets. cbn [res].
  destruct (reducer (currentState c) a) as [s'|e] eqn:Hred.
  - rewrite (reduceAndNotify_ok _ _ _ _ _ Hred) in *. cbv zeta in *.
    cbn [vars] in *. split; [split; [reflexivity|split]|].
    + intros Hq. now rewrite (forEach_quiet call (set_currentState s' c) Hq).
    + intros Hu. now rewrite (proj1 (Hstep Hu)).
    + intros Hu. destruct (Hstep Hu) as [Hs Hn]. rewrite Hs, Hn.
      split; [reflexivity|]. intros H. now inversion H.
  - rewrite (reduceAndNotify_throw _ _ _ _ _ Hred). cbn [vars].
    split; [reflexivity|]. intros _. split; [reflexivity|discriminate].
Qed.

Lemma malformed_rename_reaches_reducer_witness :
  let a := mkAction "@@RENAME_STORE" [("name", VNumber 3)] in
  let c :=
    snd (run counterReducer observers [Subscribe 0]
           (vars (createStore counterReducer observers (counter 0) None))) in
  type a = "@@RENAME_STORE" /\
  typeof (get "name" (fields a)) <> "string" /\
  undisturbed observers c /\
  let o := dispatch counterReducer observers a c in
  trace o = [Reduce (counter 0) a; Notify 0] /\
  res (getStoreName (vars o)) = Ok "default" /\
  res (getState (vars o)) = Ok (counter 0).
Proof.
  cbv zeta. split; [reflexivity|]. split; [discriminate|].
  split; [right; exact observers_passive|].
  destruct (malformed_rename_reaches_reducer counterReducer observers
              (mkAction "@@RENAME_STORE" [("name", VNumber 3)])
              (snd (run counterReducer observers [Subscribe 0]
                      (vars (createStore counterReducer observers
                               (counter 0) None))))
              eq_refl ltac:(discriminate)) as (_ & Hcase & Hu).
  destruct (Hu (or_intror observers_passive)) as [Hn Hs].
  split; [|split; [exact Hn|exact (Hs eq_refl)]].
  exact (f_equal trace (proj1 Hcase)).
Defined.

(** C7, as stated, fails in its last part: the reducer returns the state it
    is given for the tag, but the pass that follows runs the listeners.
    With a listener that dispatches an increment while the count is below
    [2], the dispatch of a rename without [name] on [{ count: 0 }] leaves
    [{ count: 2 }]. *)
Lemma malformed_rename_with_reentrant_listener :
  (forall n,
     let a := mkAction "@@RENAME_STORE" [] in
     let c := mkClosure (counter 0) "default" [0] in
     counterReducer (currentState c) a = Ok (currentState c) /\
     res (getState (vars (dispatch counterReducer (reentrant (S (S (S n)))) a
                            c))) = Ok (counter 2)) /\
  ~ (forall (reducer : Reducer) (call : Listener -> M unit) (a : Action)
            (c : Closure),
        type a = "@@RENAME_STORE" ->
        typeof (get "name" (fields a)) <> "string" ->
        reducer (currentState c) a = Ok (currentState c) ->
        res (getState (vars (dispatch reducer call a c)))
          = Ok (currentState c)).
Proof.
  split; [intros n; split; reflexivity|].
  intros H.
  specialize (H counterReducer (reentrant 3) (mkAction "@@RENAME_STORE" [])
                (mkClosure (counter 0) "default" [0]) eq_refl
                ltac:(discriminate) eq_refl).
  vm_compute in H. discriminate H.
Qed.

(** ** Registrations *)

Lemma run_registrations (reducer : Reducer) (call : Listener -> M unit)
  (l : Listener) (ls : list Listener) :
  ~ In l ls ->
  forall rs m c,
    listeners c = ls ++ repeat l m ->
    Forall (fun r => r = Subscribe l \/ r = Unsubscribe l) rs ->
    run reducer call rs c =
    ([], set_listeners (ls ++ repeat l (entriesAfter rs m)) c).
Proof.
  intros Hl. induction rs as [|r rs IH]; intros m c Hc Hrs.
  - cbn [run entriesAfter fold_left]. now rewrite <- Hc, set_listeners_same.
  - inversion Hrs as [|r' rs' Hr Hrs']. subst r' rs'. cbn [run].
    destruct Hr as [->| ->].
    + assert (Hp : perform reducer call (Subscribe l) c =
                   Outcome [] (Ok tt)
                           (set_listeners (ls ++ repeat l (S m)) c)).
      { cbn [perform]. unfold bind. rewrite subscribe_eq.
        unfold ret, push. cbn [res vars trace app]. rewrite Hc.
        rewrite <- app_assoc, <- repeat_cons. reflexivity. }
      rewrite Hp. cbn [vars trace app].
      rewrite (IH (S m)) by (reflexivity || assumption).
      now rewrite set_listeners_twice.
    + rewrite perform_unsubscribe. cbn [vars trace app].
      rewrite Hc, (removeFirst_repeat l ls m Hl).
      rewrite (IH (Nat.pred m)) by (reflexivity || assumption).
      now rewrite set_listeners_twice.
Qed.

(** X10. Registrations are counted.  For a listener that is not in the
    array, after any sequence of [subscribe] calls for it and calls of the
    functions they returned, in any order, the array is the old entries
    followed by as many entries of the listener as the sequence leaves: one
    more at each [subscribe], one less at each call of a function returned
    that finds one.  Nothing else of the store changes and no listener is
    called.  So [n] calls of [subscribe] followed by [k] calls of the
    functions returned leave [n - k] entries, and the store as it was
    before the first [subscribe] when [k >= n]. *)
Theorem registrations_are_counted (reducer : Reducer)
  (call : Listener -> M unit) (c : Closure) (l : Listener) :
  ~ In l (listeners c) ->
  (forall rs,
      Forall (fun r => r = Subscribe l \/ r = Unsubscribe l) rs ->
      run reducer call rs c =
      ([], set_listeners (listeners c ++ repeat l (entriesAfter rs 0)) c)) /\
  (forall n k,
      run reducer call (repeat (Subscribe l) n ++ repeat (Unsubscribe l) k) c
      = ([], set_listeners (listeners c ++ repeat l (n - k)) c) /\
      (n <= k ->
       snd (run reducer call
              (repeat (Subscribe l) n ++ repeat (Unsubscribe l) k) c) = c)).
Proof.
  intros Hl. split.
  - intros rs Hrs.
    apply (run_registrations reducer call l (listeners c) Hl rs 0 c);
      [|exact Hrs].
    cbn [repeat]. now rewrite app_nil_r.
  - intros n k.
    assert (H : run reducer call
                  (repeat (Subscribe l) n ++ repeat (Unsubscribe l) k) c =
                ([], set_listeners (listeners c ++ repeat l (n - k)) c)).
    { rewrite run_app, run_subscribes. cbn [fst snd app].
      rewrite (run_unsubscribes reducer call l (listeners c) Hl k n)
        by reflexivity.
      cbn [fst snd]. now rewrite set_listeners_twice. }
    split; [exact H|].
    intros Hnk. rewrite H. cbn [snd].
    replace (n - k) with 0 by lia. cbn [repeat].
    now rewrite app_nil_r, set_listeners_same.
Qed.

Lemma registrations_are_counted_witness :
  let c := mkClosure (counter 0) "default" [1] in
  ~ In 7 (listeners c) /\
  listeners (snd (run counterReducer observers
                    [Subscribe 7; Unsubscribe 7; Unsubscribe 7; Subscribe 7]
                    c)) = [1; 7] /\
  listeners (snd (run counterReducer observers
                    (repeat (Subscribe 7) 3 ++ repeat (Unsubscribe 7) 2) c))
    = [1; 7].
Proof.
  cbv zeta.
  assert (H : ~ In 7 (listeners (mkClosure (counter 0) "default" [1])))
    by (intros [E|[]]; discriminate E).
  split; [exact H|].
  destruct (registrations_are_counted counterReducer observers
              (mkClosure (counter 0) "default" [1]) 7 H) as [Hany Hrow].
  assert (HF : Forall (fun r => r = Subscribe 7 \/ r = Unsubscribe 7)
                 [Subscribe 7; Unsubscribe 7; Unsubscribe 7; Subscribe 7]).
  { repeat (apply Forall_cons;
            [first [left; reflexivity|right; reflexivity]|]).
    apply Forall_nil. }
  split.
  - exact (f_equal (fun p => listeners (snd p)) (Hany _ HF)).
  - exact (f_equal (fun p => listeners (snd p)) (proj1 (Hrow 3 2))).
Defined.

(** X11. A listener is called from the first dispatch after its
    [subscribe], and last: when the listeners return and, while they are
    notified, neither unsubscribe nor call [dispatch] or [setStoreName]
    (they may subscribe), a dispatch that the reducer does not fail calls
    the old entries in order and then the new one. *)
Theorem subscribed_listener_is_called_last (reducer : Reducer)
  (call : Listener -> M unit) (c : Closure) (l : Listener) (a : Action) :
  appending call ->
  (renameTarget a <> None \/ exists s', reducer (currentState c) a = Ok s') ->
  let o := dispatch reducer call a (vars (subscribe l c)) in
  res o = Ok tt /\
  notified (trace o) = listeners c ++ [l].
Proof.
  intros Ha Hnf o. subst o. rewrite subscribe_eq. cbn [vars].
  set (c1 := set_listeners (push l (listeners c)) c).
  destruct (renameTarget a) as [name|] eqn:Hn.
  - rewrite (dispatch_rename _ _ _ _ _ Hn), setStoreName_eq.
    destruct (forEach_appending call Ha (set_storeName name c1))
      as (Hr & Ht & _).
    rewrite Hr, Ht, notified_map. split; reflexivity.
  - destruct Hnf as [Hnf|[s' Hs']]; [congruence|].
    rewrite (dispatch_other _ _ _ _ Hn).
    rewrite (reduceAndNotify_ok _ _ _ c1 s') by exact Hs'.
    cbv zeta. cbn [res vars trace notified].
    destruct (forEach_appending call Ha (set_currentState s' c1))
      as (Hr & Ht & _).
    rewrite Hr, Ht, notified_map. split; reflexivity.
Qed.

Lemma subscribed_listener_is_called_last_witness :
  appending (subscribing 9) /\
  let c := mkClosure (counter 0) "default" [0; 1] in
  notified (trace (dispatch counterReducer (subscribing 9) INCREMENT
                     (vars (subscribe 5 c)))) = [0; 1; 5].
Proof.
  split; [exact (subscribing_appending 9)|]. cbv zeta.
  exact (proj2 (subscribed_listener_is_called_last counterReducer
                  (subscribing 9)
                  (mkClosure (counter 0) "default" [0; 1]) 5 INCREMENT
                  (subscribing_appending 9)
                  (or_intror (ex_intro _ (counter 1) eq_refl)))).
Defined.
